(** * Handit scaffolded agent: execution engine, checkpoint threads, use-case harness

    A shallow embedding of the Python sources of the scaffolded LangGraph
    agent (state record, node retry loops, graph builder and executor,
    checkpoint thread ids, use-case executor) and the properties of the
    specification proved or refuted on it.

    Conventions of the embedding.
    - Python values that travel through the engine (inputs, outputs, JSON
      use cases) are the inductive type [value]; a dict literal keeps its
      insertion order as an association list with string keys.
    - The per-stage maps of [AgentState] are finite maps ([gmap string value]).
    - Code that raises returns an [outcome]; code that also awaits a compute
      call or sleeps runs in the monad [M], a state-and-exception monad over
      a [world] that counts the compute calls and records the sleeps.
    - The compute callables, the graph library's traversal as seen from
      [execute], the agent factory [get_agent] and Python's builtin [str]
      are parameters.
    - A [str] is the sequence of its code points; the embedding covers the
      code points below 256, one character of a Rocq string each.
    - [print] output is not modelled. Delays are whole seconds: the sources
      use the floats 1.0 and 2.0 multiplied by small integers, which binary
      floating point represents exactly. *)

From Stdlib Require Import ZArith QArith Qround String Ascii List Lia.
From Stdlib Require Import DecimalString.
From stdpp Require Import base option list strings gmap.

Set Warnings "-register-all".
Open Scope string_scope.
Open Scope Z_scope.

(* ================================================================== *)
(** * Part I. The embedding                                            *)
(* ================================================================== *)

(** ** Python values *)

Inductive value : Type :=
| PyNone
| PyBool (b : bool)
| PyInt (n : Z)
| PyFloat (q : Q)          (* a finite float, by its exact rational value *)
| PyStr (s : string)        (* a [str] of code points below 256, one character each *)
| PyList (items : list value)
| PyDict (entries : list (string * value)).

Definition is_none (v : value) : bool :=
  match v with PyNone => true | _ => false end.
Definition is_str (v : value) : bool :=
  match v with PyStr _ => true | _ => false end.
Definition is_dict (v : value) : bool :=
  match v with PyDict _ => true | _ => false end.
Definition is_list (v : value) : bool :=
  match v with PyList _ => true | _ => false end.

(** [d.get(k)] on an insertion-ordered dict. *)
Fixpoint dict_get (d : list (string * value)) (k : string) : option value :=
  match d with
  | [] => None
  | (k', v) :: d' => if String.eqb k' k then Some v else dict_get d' k
  end.

(** [k in d]. *)
Definition dict_mem (d : list (string * value)) (k : string) : bool :=
  match dict_get d k with Some _ => true | None => false end.

(** Numbers compare across [bool], [int] and [float] by their exact value. *)
Definition as_number (v : value) : option Q :=
  match v with
  | PyBool b => Some (inject_Z (if b then 1 else 0))
  | PyInt n => Some (inject_Z n)
  | PyFloat q => Some q
  | _ => None
  end.

(** Python's [==] on values. *)
Fixpoint py_eq (a b : value) : bool :=
  match a with
  | PyNone => is_none b
  | PyStr s => match b with PyStr t => String.eqb s t | _ => false end
  | PyList l =>
      match b with
      | PyList m =>
          (fix items_eq (l m : list value) : bool :=
             match l, m with
             | [], [] => true
             | x :: l', y :: m' => py_eq x y && items_eq l' m'
             | _, _ => false
             end) l m
      | _ => false
      end
  | PyDict d =>
      match b with
      | PyDict e =>
          Nat.eqb (length d) (length e) &&
          (fix entries_eq (d : list (string * value)) : bool :=
             match d with
             | [] => true
             | (k, v) :: d' =>
                 match dict_get e k with
                 | Some w => py_eq v w
                 | None => false
                 end && entries_eq d'
             end) d
      | _ => false
      end
  | PyBool _ | PyInt _ | PyFloat _ =>
      match as_number a, as_number b with
      | Some x, Some y => Qeq_bool x y
      | _, _ => false
      end
  end.

(** Truth value of a Python object ([if x:], [not x]). *)
Definition py_truthy (v : value) : bool :=
  match v with
  | PyNone => false
  | PyBool b => b
  | PyInt n => negb (n =? 0)
  | PyFloat q => negb (Qeq_bool q 0)
  | PyStr s => negb (String.eqb s "")
  | PyList l => negb (Nat.eqb (length l) 0)
  | PyDict d => negb (Nat.eqb (length d) 0)
  end.

(** Truth value of an optional string argument such as [session_id]:
    both [None] and the empty string are false. *)
Definition str_opt_truthy (s : option string) : bool :=
  match s with
  | Some s => negb (String.eqb s "")
  | None => false
  end.

(** [str.isspace] on one character, which is what [str.strip] removes:
    among the code points below 256 these are TAB..CR, FS..US, the space,
    NEL (U+0085) and the no-break space (U+00A0). *)
Definition is_py_space (c : ascii) : bool :=
  let n := nat_of_ascii c in
  ((9 <=? n) && (n <=? 13) || (28 <=? n) && (n <=? 32)
   || (n =? 133) || (n =? 160))%nat.

Fixpoint lstrip (s : string) : string :=
  match s with
  | EmptyString => EmptyString
  | String c s' => if is_py_space c then lstrip s' else s
  end.

(** [rstrip], computed from the right end. *)
Fixpoint rstrip (s : string) : string :=
  match s with
  | EmptyString => EmptyString
  | String c s' =>
      match rstrip s' with
      | EmptyString => if is_py_space c then EmptyString else String c EmptyString
      | r => String c r
      end
  end.

(** [s.strip()]. *)
Definition strip (s : string) : string := rstrip (lstrip s).

(** Decimal rendering of integers inside f-strings. *)
Definition str_of_nat (n : nat) : string := NilZero.string_of_uint (Nat.to_uint n).
Definition str_of_Z (z : Z) : string := NilZero.string_of_int (Z.to_int z).

(** ** Exceptions and outcomes *)

(** An exception class stands for itself and its subclasses, as the
    [except] clauses see it. Every class below derives from [Exception].
    [NodeExecutionError] is the class the docstrings of the node runs
    announce; the processors never bind the name (see
    [raise_NodeExecutionError]), and it occurs below only as the class of an
    error that a node instance hands to its wrapper. *)
Inductive exn_class : Type :=
| ValueError
| TypeError
| TimeoutError
| KeyError
| AttributeError
| NameError
| ZeroDivisionError
| NodeExecutionError
| GraphExecutionError
| OtherException.

Record exn : Type := Exn { exn_cls : exn_class; exn_msg : string }.

Inductive outcome (A : Type) : Type :=
| Returned (a : A)
| Raised (e : exn).
Arguments Returned {A} a.
Arguments Raised {A} e.

#[global] Instance outcome_ret : MRet outcome := fun A a => Returned a.
#[global] Instance outcome_bind : MBind outcome := fun A B f m =>
  match m with
  | Returned a => f a
  | Raised e => Raised e
  end.

#[global] Instance outcome_fmap : FMap outcome := fun A B f m =>
  match m with
  | Returned a => Returned (f a)
  | Raised e => Raised e
  end.

(** [except (ValueError, TypeError)]. *)
Definition is_validation_exn (e : exn) : bool :=
  match exn_cls e with
  | ValueError | TypeError => true
  | _ => false
  end.

(** [except asyncio.TimeoutError]. *)
Definition is_timeout_exn (e : exn) : bool :=
  match exn_cls e with
  | TimeoutError => true
  | _ => false
  end.

(** ** The effect monad of the retry loops *)

Inductive event : Type :=
| Invoke (call_index : nat)     (* one awaited compute call *)
| Sleep (seconds : Z).          (* one [asyncio.sleep] *)

Record world : Type := World { calls : nat; trace : list event }.

Definition M (A : Type) : Type := world -> outcome A * world.

#[global] Instance M_ret : MRet M := fun A a w => (Returned a, w).
#[global] Instance M_bind : MBind M := fun A B f m w =>
  match m w with
  | (Returned a, w') => f a w'
  | (Raised e, w') => (Raised e, w')
  end.

Definition raise {A : Type} (e : exn) : M A := fun w => (Raised e, w).

(** [try: m  except Exception as e: h e]; a [raise] inside the handler
    propagates. *)
Definition try_except {A : Type} (m : M A) (h : exn -> M A) : M A := fun w =>
  match m w with
  | (Returned a, w') => (Returned a, w')
  | (Raised e, w') => h e w'
  end.

(** [await asyncio.sleep(seconds)]. *)
Definition sleep (seconds : Z) : M unit := fun w =>
  (Returned tt, World (calls w) ((trace w ++ [Sleep seconds])%list)).

(** Awaiting the pluggable compute: its outcome may change from one call
    to the next, so it is indexed by the number of calls made before. *)
Definition await_compute {A : Type} (compute : nat -> outcome A) : M A := fun w =>
  (compute (calls w), World (S (calls w)) ((trace w ++ [Invoke (calls w)])%list)).

(** [for x in xs: body] where [body] either returns from the enclosing
    function ([Some r]) or falls through to the next iteration ([None]);
    [after] is the code behind the loop. *)
Fixpoint for_each {A R : Type} (xs : list A) (body : A -> M (option R)) (after : M R) : M R :=
  match xs with
  | [] => after
  | x :: xs' =>
      r ← body x;
      match r with
      | Some v => mret v
      | None => for_each xs' body after
      end
  end.

Definition initial_world : world := World 0 [].

(** What a finished run shows: the sleeps, in order, and the number of
    compute calls. *)
Definition delays (w : world) : list Z :=
  omap (fun ev => match ev with Sleep d => Some d | Invoke _ => None end) (trace w).

(** ** Checkpoint thread ids (checkpoints/checkpointer.py) *)

Definition get_thread_config (user_id : string) (session_id : option string) : value :=
  let thread_id := "user_" +:+ user_id in
  let thread_id :=
    if str_opt_truthy session_id
    then thread_id +:+ "_session_" +:+ default "" session_id
    else thread_id in
  PyDict [("configurable", PyDict [("thread_id", PyStr thread_id)])].

(** [version] defaults to ["v1.0.0"] when omitted. *)
Definition get_versioned_thread_config
    (user_id : string) (version : option string) (session_id : option string) : value :=
  let version := default "v1.0.0" version in
  let base_thread_id := "user_" +:+ user_id in
  let base_thread_id :=
    if str_opt_truthy session_id
    then base_thread_id +:+ "_session_" +:+ default "" session_id
    else base_thread_id in
  let thread_id := base_thread_id +:+ "_v" +:+ version in
  PyDict [("configurable", PyDict [("thread_id", PyStr thread_id)])].

(** ** The execution state (state/state.py) *)

Record message : Type := Message { role : string; content : string }.

Definition HumanMessage (content : string) : message := Message "human" content.
Definition AIMessage (content : string) : message := Message "ai" content.

Record AgentState : Type := mkState {
  input : value;
  messages : list message;
  context : gmap string value;
  results : gmap string value;
  current_stage : option string;
  error : option string;
  metadata : gmap string value
}.

(** The keyword arguments of [update_state]: a field that is absent keeps
    the current value; [error=None] is present and clears the field. *)
Record updates : Type := mkUpdates {
  u_input : option value;
  u_messages : option (list message);
  u_context : option (gmap string value);
  u_results : option (gmap string value);
  u_current_stage : option (option string);
  u_error : option (option string);
  u_metadata : option (gmap string value)
}.

Definition no_updates : updates := mkUpdates None None None None None None None.

Definition update_state (current_state : AgentState) (u : updates) : AgentState :=
  {| input := default (input current_state) (u_input u);
     messages := default (messages current_state) (u_messages u);
     context := default (context current_state) (u_context u);
     results := default (results current_state) (u_results u);
     current_stage := default (current_stage current_state) (u_current_stage u);
     error := default (error current_state) (u_error u);
     metadata := default (metadata current_state) (u_metadata u) |}.

Definition get_stage_result (state : AgentState) (stage : string) : option value :=
  results state !! stage.

Definition set_stage_result (state : AgentState) (stage : string) (result : value) : AgentState :=
  let updated_results := <[stage := result]> (results state) in
  update_state state (mkUpdates None None None (Some updated_results) None None None).

Definition add_message (state : AgentState) (msg : message) : AgentState :=
  let updated_messages := (messages state ++ [msg])%list in
  update_state state (mkUpdates None (Some updated_messages) None None None None None).

Definition set_error (state : AgentState) (err : string) : AgentState :=
  update_state state (mkUpdates None None None None None (Some (Some err)) None).

Definition clear_error (state : AgentState) : AgentState :=
  update_state state (mkUpdates None None None None None (Some None) None).

(** ** Configuration (config.py) *)

Record Config : Type := mkConfig { agent_stages : list string }.

Definition default_config : Config := mkConfig ["llm_1"; "llm_2"; "llm_3"].

(** ** Node-level validation (base.py) *)

(** [BaseNode.validate_input]: [data is not None]. *)
Definition validate_input (data : value) : bool := negb (is_none data).

(** ** Graph-level validation (graph/main.py) *)

Definition _validate_graph_input (input_data : value) : bool :=
  match input_data with
  | PyNone => false
  | PyStr s =>
      (0 <? Z.of_nat (String.length (strip s))) && (Z.of_nat (String.length s) <=? 50000)
  | PyDict d => py_truthy (PyDict d)
  | PyList l => (0 <? Z.of_nat (length l)) && (Z.of_nat (length l) <=? 1000)
  | _ => true
  end.

Definition _validate_graph_output (result : value) : bool :=
  match result with
  | PyNone => false
  | PyDict d => dict_mem d "results" || dict_mem d "messages"
  | _ => true
  end.

(** [_get_next_stage]: the routing function of the conditional edges. *)
Definition _get_next_stage (state : AgentState) : string := "continue".

Section Engine.

(** Python's builtin [str], applied by the f-strings and by [str(input_data)]. *)
Variable py_str : value -> string.

Definition lift_outcome {A : Type} (o : outcome A) : M A := fun w => (o, w).

(** [asyncio.wait_for(coro, timeout)]. The deadline is kept by the event
    loop: a compute that exceeds it shows as [Raised] of a [TimeoutError]
    in the outcome of that call. *)
Definition wait_for {A : Type} (coro : nat -> outcome A) (timeout : Z) : M A :=
  await_compute coro.

(** ** The node retry loops (nodes/llm/llm_3/processor.py, nodes/tools/llm_2/processor.py) *)

Section NodeRuns.

(** [self.validate_output(result)]: neither the node classes nor any class
    of base.py defines [validate_output], so the attribute lookup on the
    node object raises, whatever the result. *)
Definition validate_output (class_name : string) (result : value) : M bool :=
  raise (Exn AttributeError
           ("'" +:+ class_name +:+ "' object has no attribute 'validate_output'")).

(** [raise NodeExecutionError(msg)]: the processors neither define nor
    import the name [NodeExecutionError], so evaluating it raises
    [NameError] and the message is not used. *)
Definition raise_NodeExecutionError {A : Type} (msg : string) : M A :=
  raise (Exn NameError "name 'NodeExecutionError' is not defined").

(** [Llm_3LLMNode.run]; the compute is [_execute_llm_3_llm_logic]. *)
Definition Llm_3LLMNode_run
    (_execute_llm_3_llm_logic : nat -> value -> outcome value)
    (input_data : value) : M value :=
  let node_name := "llm_3" in
  let max_retries := 3%nat in
  let retry_delay := 2 in
  for_each (seq 0 max_retries)
    (fun attempt =>
       try_except
         (if negb (validate_input input_data)
          then raise (Exn ValueError ("Invalid input data for " +:+ node_name))
          else
            result ← wait_for (fun k => _execute_llm_3_llm_logic k input_data) 60;
            valid ← validate_output "Llm_3LLMNode" result;
            if negb valid
            then raise (Exn ValueError ("Invalid output from " +:+ node_name))
            else mret (Some result))
         (fun e =>
            if is_validation_exn e then
              raise_NodeExecutionError
                ("Validation failed in " +:+ node_name +:+ ": " +:+ exn_msg e)
            else if is_timeout_exn e then
              if (attempt =? max_retries - 1)%nat then
                raise_NodeExecutionError
                  ("LLM timeout in " +:+ node_name +:+ " after "
                   +:+ str_of_nat max_retries +:+ " attempts")
              else
                _ ← sleep (retry_delay * (Z.of_nat attempt + 1));
                mret None
            else
              if (attempt =? max_retries - 1)%nat then
                let error_msg :=
                  "Failed to execute " +:+ node_name +:+ " after "
                  +:+ str_of_nat max_retries +:+ " attempts: " +:+ exn_msg e in
                raise_NodeExecutionError error_msg
              else
                _ ← sleep (retry_delay * 2 ^ Z.of_nat attempt);
                mret None))
    (raise_NodeExecutionError ("Unexpected error in " +:+ node_name +:+ " execution")).

(** [Llm_2ToolNode.run]; the compute is [_execute_llm_2_logic], awaited
    without a deadline, and there is no clause for timeouts. *)
Definition Llm_2ToolNode_run
    (_execute_llm_2_logic : nat -> value -> outcome value)
    (input_data : value) : M value :=
  let node_name := "llm_2" in
  let max_retries := 3%nat in
  let retry_delay := 1 in
  for_each (seq 0 max_retries)
    (fun attempt =>
       try_except
         (if negb (validate_input input_data)
          then raise (Exn ValueError ("Invalid input data for " +:+ node_name))
          else
            result ← await_compute (fun k => _execute_llm_2_logic k input_data);
            valid ← validate_output "Llm_2ToolNode" result;
            if negb valid
            then raise (Exn ValueError ("Invalid output from " +:+ node_name))
            else mret (Some result))
         (fun e =>
            if is_validation_exn e then
              raise_NodeExecutionError
                ("Validation failed in " +:+ node_name +:+ ": " +:+ exn_msg e)
            else
              if (attempt =? max_retries - 1)%nat then
                let error_msg :=
                  "Failed to execute " +:+ node_name +:+ " after "
                  +:+ str_of_nat max_retries +:+ " attempts: " +:+ exn_msg e in
                raise_NodeExecutionError error_msg
              else
                _ ← sleep (retry_delay * 2 ^ Z.of_nat attempt);
                mret None))
    (raise_NodeExecutionError ("Unexpected error in " +:+ node_name +:+ " execution")).

End NodeRuns.

(** ** The graph executor (graph/main.py) *)

Section Execute.

Variable config : Config.

(** [self.graph.ainvoke]: the compiled graph's traversal, as [execute]
    sees it. *)
Variable ainvoke : nat -> AgentState -> outcome value.

(** The dict literal [initial_state] that [execute] prepares on each
    attempt. *)
Definition initial_state (input_data : value) (attempt max_retries : nat) : AgentState :=
  {| input := input_data;
     messages := [HumanMessage (py_str input_data)];
     context := ∅;
     results := ∅;
     current_stage := head (agent_stages config);
     error := None;
     metadata :=
       <["max_retries" := PyInt (Z.of_nat max_retries)]>
         (<["attempt" := PyInt (Z.of_nat attempt + 1)]> ∅) |}.

Definition execute (input_data : value) : M value :=
  let max_retries := 3%nat in
  let retry_delay := 2 in
  for_each (seq 0 max_retries)
    (fun attempt =>
       try_except
         (if negb (_validate_graph_input input_data)
          then raise (Exn ValueError "Invalid input data for graph execution")
          else
            let initial_state := initial_state input_data attempt max_retries in
            result ← wait_for (fun k => ainvoke k initial_state) 120;
            if negb (_validate_graph_output result)
            then raise (Exn ValueError "Invalid output from graph execution")
            else mret (Some result))
         (fun e =>
            if is_validation_exn e then
              raise (Exn GraphExecutionError ("Graph validation failed: " +:+ exn_msg e))
            else if is_timeout_exn e then
              if (attempt =? max_retries - 1)%nat then
                raise (Exn GraphExecutionError
                         ("Graph execution timeout after "
                          +:+ str_of_nat max_retries +:+ " attempts"))
              else
                _ ← sleep (retry_delay * (Z.of_nat attempt + 1));
                mret None
            else
              if (attempt =? max_retries - 1)%nat then
                let error_msg :=
                  "Graph execution failed after " +:+ str_of_nat max_retries
                  +:+ " attempts: " +:+ exn_msg e in
                raise (Exn GraphExecutionError error_msg)
              else
                _ ← sleep (retry_delay * 2 ^ Z.of_nat attempt);
                mret None))
    (raise (Exn GraphExecutionError "Unexpected error in graph execution")).

End Execute.

(** ** Stage node functions (graph/nodes/nodes.py) *)

(** [stages.index(x) if x in stages else -1]. *)
Fixpoint list_index (x : string) (l : list string) : option nat :=
  match l with
  | [] => None
  | y :: l' => if String.eqb y x then Some 0%nat else S <$> list_index x l'
  end.

Definition index_or_minus_one (x : string) (l : list string) : Z :=
  match list_index x l with
  | Some i => Z.of_nat i
  | None => -1
  end.

Definition node_fn : Type := AgentState -> M AgentState.

Section GraphNodes.

(** [_get_node_instance(node_name, node_type)] builds the node class by
    reflection on its name; it is taken as given, and a node instance is
    its [run] method. *)
Variable _get_node_instance : string -> string -> outcome (value -> M value).

(** What a wrapper hands to the node class: the result of the previous
    stage when there is one, else [str(input_data)]. *)
Definition processing_input_of (stage : string) (state : AgentState) : value :=
  let input_data := input state in
  let previous_results :=
    if negb (bool_decide (results state = ∅)) then
      let stages := ["llm_1"; "llm_2"; "llm_3"] in
      let current_index := index_or_minus_one stage stages in
      if 0 <? current_index then
        let prev_stage := nth (Z.to_nat (current_index - 1)) stages "" in
        default (PyStr "") (results state !! prev_stage)
      else PyStr ""
    else PyStr "" in
  if py_truthy previous_results then previous_results
  else PyStr (py_str input_data).

(** The body shared by the six generated wrappers, which differ only in
    their string literals: the stage, the node type, the label of the AI
    message and the label of the error message. *)
Definition stage_node (stage node_type msg_label err_label : string) : node_fn :=
  fun state =>
  try_except
    (node_instance ← lift_outcome (_get_node_instance stage node_type);
     let processing_input := processing_input_of stage state in
     result ← node_instance processing_input;
     let state := set_stage_result state stage result in
     let message := AIMessage (msg_label +:+ ": " +:+ py_str result) in
     let state := add_message state message in
     mret state)
    (fun e =>
       let error_msg := err_label +:+ " node error: " +:+ exn_msg e in
       mret (set_error state error_msg)).

Definition llm_1_node : node_fn := stage_node "llm_1" "llm" "Llm_1" "Llm_1".
Definition llm_2_node : node_fn := stage_node "llm_2" "llm" "Llm_2" "Llm_2".
Definition llm_3_node : node_fn := stage_node "llm_3" "llm" "Llm_3" "Llm_3".
Definition llm_1_tool_node : node_fn := stage_node "llm_1" "tool" "Llm_1 Tool" "Llm_1 tool".
Definition llm_2_tool_node : node_fn := stage_node "llm_2" "tool" "Llm_2 Tool" "Llm_2 tool".
Definition llm_3_tool_node : node_fn := stage_node "llm_3" "tool" "Llm_3 Tool" "Llm_3 tool".

(** [get_graph_nodes]: the tool wrappers overwrite the LLM wrappers
    registered under the same stage names. *)
Definition get_graph_nodes (config : Config) : gmap string node_fn :=
  let node_functions : gmap string node_fn := ∅ in
  let node_functions := <["llm_1" := llm_1_node]> node_functions in
  let node_functions := <["llm_2" := llm_2_node]> node_functions in
  let node_functions := <["llm_3" := llm_3_node]> node_functions in
  let node_functions := <["llm_1" := llm_1_tool_node]> node_functions in
  let node_functions := <["llm_2" := llm_2_tool_node]> node_functions in
  let node_functions := <["llm_3" := llm_3_tool_node]> node_functions in
  foldl (fun acc stage =>
           match node_functions !! stage with
           | Some f => <[stage := f]> acc
           | None => acc
           end) ∅ (agent_stages config).

End GraphNodes.

(** ** The graph builder (graph/main.py) *)

Inductive node_id : Type :=
| START
| END
| Stage (name : string).

Definition node_id_eqb (a b : node_id) : bool :=
  match a, b with
  | START, START => true
  | END, END => true
  | Stage s, Stage t => String.eqb s t
  | _, _ => false
  end.

Inductive edge : Type :=
| Edge (src dst : node_id)
| CondEdge (src : node_id) (path : AgentState -> string) (path_map : list (string * node_id)).

(** The builder object of the graph library: the registered node functions
    and the edges in the order they were added. The library refuses a
    second node under a name already present; the stage lists considered
    below have no duplicates. *)
Record StateGraph : Type := mkGraph {
  nodes : gmap string node_fn;
  edges : list edge
}.

Definition empty_graph : StateGraph := mkGraph ∅ [].

Definition add_node (g : StateGraph) (name : string) (f : node_fn) : StateGraph :=
  mkGraph (<[name := f]> (nodes g)) (edges g).

Definition add_edge (g : StateGraph) (src dst : node_id) : StateGraph :=
  mkGraph (nodes g) (edges g ++ [Edge src dst])%list.

Definition add_conditional_edges (g : StateGraph) (src : node_id)
    (path : AgentState -> string) (path_map : list (string * node_id)) : StateGraph :=
  mkGraph (nodes g) (edges g ++ [CondEdge src path path_map])%list.

Definition _add_pipeline_edges (config : Config) (graph : StateGraph) : StateGraph :=
  let stages := agent_stages config in
  let graph :=
    foldl (fun g i => add_edge g (Stage (nth i stages "")) (Stage (nth (i + 1) stages "")))
          graph (seq 0 (length stages - 1)) in
  if negb (Nat.eqb (length stages) 0)
  then add_edge graph (Stage (List.last stages "")) END
  else graph.

Definition _add_router_edges (config : Config) (graph : StateGraph) : StateGraph :=
  let stages := agent_stages config in
  if (2 <=? length stages)%nat then
    let graph := add_edge graph (Stage (nth 0 stages "")) (Stage (nth 1 stages "")) in
    foldl (fun g i => add_edge g (Stage (nth i stages "")) END)
          graph (seq 1 (length stages - 1))
  else graph.

Definition _add_state_graph_edges (config : Config) (graph : StateGraph) : StateGraph :=
  let stages := agent_stages config in
  if Nat.eqb (length stages) 0 then graph
  else
    let graph := add_edge graph START (Stage (nth 0 stages "")) in
    foldl (fun g '(i, stage) =>
             if (i <? length stages - 1)%nat then
               add_conditional_edges g (Stage stage) _get_next_stage
                 [("continue",
                   if (i + 1 <? length stages)%nat then Stage (nth (i + 1) stages "") else END);
                  ("end", END)]
             else add_edge g (Stage stage) END)
          graph (combine (seq 0 (length stages)) stages).

Definition _build_graph
    (_get_node_instance : string -> string -> outcome (value -> M value))
    (config : Config) : StateGraph :=
  let graph := empty_graph in
  let nodes := get_graph_nodes _get_node_instance config in
  let graph :=
    foldl (fun g stage =>
             match nodes !! stage with
             | Some f => add_node g stage f
             | None => g
             end) graph (agent_stages config) in
  _add_state_graph_edges config graph.

(** ** Traversal of a built graph *)

Definition edge_src (e : edge) : node_id :=
  match e with
  | Edge src _ => src
  | CondEdge src _ _ => src
  end.

Fixpoint path_map_get (pm : list (string * node_id)) (label : string) : option node_id :=
  match pm with
  | [] => None
  | (l, n) :: pm' => if String.eqb l label then Some n else path_map_get pm' label
  end.

(** Where an edge leads in a given state: a conditional edge evaluates its
    routing function and looks the answer up in its map. *)
Definition edge_target (st : AgentState) (e : edge) : option node_id :=
  match e with
  | Edge _ dst => Some dst
  | CondEdge _ path pm => path_map_get pm (path st)
  end.

Definition out_edges (g : StateGraph) (n : node_id) : list edge :=
  List.filter (fun e => node_id_eqb (edge_src e) n) (edges g).

(** The node that follows [n]: the traversal is sequential, so exactly one
    edge must leave [n]. *)
Definition next_node (g : StateGraph) (st : AgentState) (n : node_id) : outcome node_id :=
  match out_edges g n with
  | [e] =>
      match edge_target st e with
      | Some m => Returned m
      | None => Raised (Exn KeyError "unknown routing answer")
      end
  | [] => Raised (Exn ValueError "node without outgoing edge")
  | _ => Raised (Exn OtherException "parallel branches")
  end.

(** How a node's returned state is folded into the current one. The spec
    threads the returned state forward; the [messages] field of
    [AgentState] is declared with the reducer [operator.add], under which
    the graph library appends what a node returns to what it holds. *)
Definition thread_forward (current returned : AgentState) : AgentState := returned.

Definition channel_merge (current returned : AgentState) : AgentState :=
  update_state returned
    (mkUpdates None (Some (messages current ++ messages returned)%list)
       None None None None None).

(** Modelled from the spec: the traversal engine is the graph library's
    [ainvoke], which is not part of the sources. The engine walks the graph
    from the entry, invoking each stage's node function and threading the
    returned state forward, strictly sequentially, until the terminal
    marker; [recursion_limit] bounds the number of steps. The result is the
    list of the stages visited, in order, with the final state. *)
Fixpoint walk (merge : AgentState -> AgentState -> AgentState) (g : StateGraph)
    (recursion_limit : nat) (n : node_id) (visited : list string) (st : AgentState)
    : M (list string * AgentState) :=
  match recursion_limit with
  | O => raise (Exn OtherException "recursion limit reached")
  | S limit =>
      match n with
      | END => mret (visited, st)
      | START =>
          next ← lift_outcome (next_node g st START);
          walk merge g limit next visited st
      | Stage s =>
          match nodes g !! s with
          | None => raise (Exn ValueError ("unknown node " +:+ s))
          | Some f =>
              returned ← f st;
              let st' := merge st returned in
              next ← lift_outcome (next_node g st' (Stage s));
              walk merge g limit next (visited ++ [s])%list st'
          end
      end
  end.

Definition invoke (merge : AgentState -> AgentState -> AgentState) (g : StateGraph)
    (recursion_limit : nat) (st : AgentState) : M (list string * AgentState) :=
  walk merge g recursion_limit START [] st.

End Engine.

(** ** The use-case executor (templates/base/utils/use_case_executor.py) *)

(** The operators the executor applies to values of unknown type. The
    wording of the interpreter's own error messages is not part of the
    sources and is kept short. *)

Fixpoint is_substring (needle hay : string) : bool :=
  String.prefix needle hay ||
  match hay with
  | EmptyString => false
  | String _ hay' => is_substring needle hay'
  end.

(** [x in container]. *)
Definition py_contains (container x : value) : outcome bool :=
  match container with
  | PyDict d =>
      match x with
      | PyStr k => Returned (dict_mem d k)
      | PyList _ | PyDict _ => Raised (Exn TypeError "unhashable type")
      | _ => Returned false
      end
  | PyList l => Returned (existsb (fun y => py_eq x y) l)
  | PyStr s =>
      match x with
      | PyStr t => Returned (is_substring t s)
      | _ => Raised (Exn TypeError "'in <string>' requires string as left operand")
      end
  | _ => Raised (Exn TypeError "argument is not iterable")
  end.

(** [container[key]] for a string key. *)
Definition py_getitem (container : value) (key : string) : outcome value :=
  match container with
  | PyDict d =>
      match dict_get d key with
      | Some v => Returned v
      | None => Raised (Exn KeyError ("'" +:+ key +:+ "'"))
      end
  | PyList _ => Raised (Exn TypeError "list indices must be integers or slices, not str")
  | PyStr _ => Raised (Exn TypeError "string indices must be integers, not 'str'")
  | _ => Raised (Exn TypeError "object is not subscriptable")
  end.

(** [obj.get(key, default)]: only a dict has the method. *)
Definition py_get (obj : value) (key : string) (dflt : value) : outcome value :=
  match obj with
  | PyDict d => Returned (default dflt (dict_get d key))
  | _ => Raised (Exn AttributeError "object has no attribute 'get'")
  end.

(** The items a [for] loop draws from a value. *)
Definition py_iter (v : value) : outcome (list value) :=
  match v with
  | PyList l => Returned l
  | PyDict d => Returned (map (fun kv => PyStr (fst kv)) d)
  | PyStr s => Returned (map (fun c => PyStr (String c EmptyString)) (list_ascii_of_string s))
  | _ => Raised (Exn TypeError "object is not iterable")
  end.

(** [n <= v] and [n >= v] for an integer [n]. *)
Definition py_int_le (n : Z) (v : value) : outcome bool :=
  match as_number v with
  | Some q => Returned (Qle_bool (inject_Z n) q)
  | None => Raised (Exn TypeError "'<=' not supported between instances")
  end.

Definition py_int_ge (n : Z) (v : value) : outcome bool :=
  match as_number v with
  | Some q => Returned (Qle_bool q (inject_Z n))
  | None => Raised (Exn TypeError "'>=' not supported between instances")
  end.

(** [a / b] on numbers. *)
Definition py_truediv (a b : Q) : outcome Q :=
  if Qeq_bool b 0 then Raised (Exn ZeroDivisionError "division by zero")
  else Returned (a / b)%Q.

(** [round(q, 2)], half to even, on the exact value; the rounding of the
    float arithmetic itself is not modelled. *)
Definition py_round2 (q : Q) : Q :=
  let scaled := (q * 100)%Q in
  let fl := Qfloor scaled in
  let twice_frac := (2 * (scaled - inject_Z fl))%Q in
  let up :=
    if Qle_bool twice_frac 1
    then (if Qeq_bool twice_frac 1 then Z.odd fl else false)
    else true in
  (inject_Z (if up then fl + 1 else fl) / 100)%Q.

(** [type(e).__name__]. *)
Definition exn_class_name (c : exn_class) : string :=
  match c with
  | ValueError => "ValueError"
  | TypeError => "TypeError"
  | TimeoutError => "TimeoutError"
  | KeyError => "KeyError"
  | AttributeError => "AttributeError"
  | NameError => "NameError"
  | ZeroDivisionError => "ZeroDivisionError"
  | NodeExecutionError => "NodeExecutionError"
  | GraphExecutionError => "GraphExecutionError"
  | OtherException => "Exception"
  end.

(** The dict [{'passed': ..., 'message': ...}] of a validation or of a
    behaviour check. *)
Record check_result : Type := CheckResult { passed : bool; check_message : string }.

(** One entry of the result list. [validation], [behavior_check], [error]
    and [error_type] are keys that may be absent. *)
Record execution_result : Type := mkResult {
  er_name : value;
  er_description : value;
  er_input : value;
  er_output : value;
  execution_time_seconds : Q;
  timestamp : string;
  status : string;
  validation : option check_result;
  behavior_check : option check_result;
  er_error : option string;
  er_error_type : option string
}.

Record report_summary : Type := mkSummary {
  total_cases : nat;
  successful : nat;
  validation_failed : nat;
  behavior_failed : nat;
  errors : nat;
  success_rate : Q;
  average_execution_time_seconds : Q
}.

Inductive report : Type :=
| ReportMessage (msg : string)                      (* {'message': msg} *)
| ReportSummary (summary : report_summary)
                (report_results : list execution_result)
                (generated_at : string).

(** An agent, by its method [execute]. *)
Definition agent : Type := value -> outcome value.

(** [try: ... except Exception as e: handler] in code without effects. *)
Definition catching {A : Type} (body : outcome A) (handler : exn -> A) : A :=
  match body with
  | Returned a => a
  | Raised e => handler e
  end.

Section UseCaseExecutor.

Variable py_str : value -> string.

Definition _validate_output (actual_output expected_output : value) : check_result :=
  catching
    (match expected_output with
     | PyDict expected =>
         (fix each_item (items : list (string * value)) : outcome check_result :=
            match items with
            | [] => Returned (CheckResult true "Output validation passed")
            | (key, expected_value) :: rest =>
                present ← py_contains actual_output (PyStr key);
                if negb present then
                  Returned (CheckResult false ("Missing expected key: " +:+ key))
                else
                  actual_value ← py_getitem actual_output key;
                  if negb (py_eq actual_value expected_value) then
                    Returned (CheckResult false
                      ("Value mismatch for key '" +:+ key +:+ "': expected "
                       +:+ py_str expected_value +:+ ", got " +:+ py_str actual_value))
                  else each_item rest
            end) expected
     | PyStr expected =>
         if negb (String.eqb (py_str actual_output) expected) then
           Returned (CheckResult false
             ("String mismatch: expected '" +:+ expected +:+ "', got '"
              +:+ py_str actual_output +:+ "'"))
         else Returned (CheckResult true "String validation passed")
     | _ =>
         if negb (py_eq actual_output expected_output) then
           Returned (CheckResult false
             ("Value mismatch: expected " +:+ py_str expected_output
              +:+ ", got " +:+ py_str actual_output))
         else Returned (CheckResult true "Value validation passed")
     end)
    (fun e => CheckResult false ("Validation error: " +:+ exn_msg e)).

(** One iteration of the loop of [_check_behavior]: [Some r] returns [r]
    from the function, [None] goes on to the next check. *)
Definition check_one (output check : value) : outcome (option check_result) :=
  check_type ← py_get check "type" PyNone;
  check_value ← py_get check "value" PyNone;
  check_description ← py_get check "description" (PyStr (py_str check_type +:+ " check"));
  let failed (what : string) : outcome (option check_result) :=
    Returned (Some (CheckResult false
      ("'" +:+ py_str check_description +:+ "' failed: " +:+ what))) in
  let output_length := Z.of_nat (String.length (py_str output)) in
  if py_eq check_type (PyStr "contains") then
    found ← py_contains (PyStr (py_str output)) check_value;
    if negb found
    then failed ("output does not contain '" +:+ py_str check_value +:+ "'")
    else Returned None
  else if py_eq check_type (PyStr "not_contains") then
    found ← py_contains (PyStr (py_str output)) check_value;
    if (found : bool)
    then failed ("output contains unwanted '" +:+ py_str check_value +:+ "'")
    else Returned None
  else if py_eq check_type (PyStr "length_greater_than") then
    too_short ← py_int_le output_length check_value;
    if (too_short : bool)
    then failed ("output length " +:+ str_of_Z output_length
                 +:+ " is not greater than " +:+ py_str check_value)
    else Returned None
  else if py_eq check_type (PyStr "length_less_than") then
    too_long ← py_int_ge output_length check_value;
    if (too_long : bool)
    then failed ("output length " +:+ str_of_Z output_length
                 +:+ " is not less than " +:+ py_str check_value)
    else Returned None
  else if py_eq check_type (PyStr "is_dict") then
    if negb (is_dict output)
    then failed "output is not a dictionary"
    else Returned None
  else if py_eq check_type (PyStr "has_key") then
    missing ←
      (if negb (is_dict output) then Returned true
       else negb <$> py_contains output check_value);
    if (missing : bool)
    then failed ("output does not have key '" +:+ py_str check_value +:+ "'")
    else Returned None
  else Returned None.

Definition _check_behavior (output expected_behavior : value) : check_result :=
  catching
    (checks ← py_get expected_behavior "checks" (PyList []);
     items ← py_iter checks;
     (fix each_check (items : list value) : outcome check_result :=
        match items with
        | [] => Returned (CheckResult true "All behavior checks passed")
        | check :: rest =>
            r ← check_one output check;
            match r with
            | Some res => Returned res
            | None => each_check rest
            end
        end) items)
    (fun e => CheckResult false ("Behavior check error: " +:+ exn_msg e)).

(** [get_agent(self.config)] of the agent module, which builds the agent
    and may raise. *)
Variable get_agent : outcome agent.

(** [load_agent], on the field [self.agent] ([None] until an agent was
    loaded): the field after the call, or the exception of [get_agent]. *)
Definition load_agent (self_agent : option agent) : outcome agent :=
  match self_agent with
  | None => get_agent
  | Some loaded => Returned loaded
  end.

(** The two readings of the clock that give the elapsed seconds and the
    ISO timestamp. *)
Variable elapsed : Q.
Variable end_time_iso : string.

(** [execute_use_case]; [await self.load_agent()] stands before the [try],
    so an exception of [get_agent] leaves the function. *)
Definition execute_use_case (self_agent : option agent) (use_case : value)
    : outcome execution_result :=
  agent_execute ← load_agent self_agent;
  match
    (name ← py_get use_case "name" (PyStr "Unnamed Use Case");
     description ← py_get use_case "description" (PyStr "");
     input_data ← py_get use_case "input" (PyDict []);
     expected_output ← py_get use_case "expected_output" PyNone;
     expected_behavior ← py_get use_case "expected_behavior" PyNone;
     result ← agent_execute input_data;
     let execution_result :=
       mkResult name description input_data result elapsed end_time_iso
                "success" None None None None in
     let execution_result :=
       if negb (is_none expected_output) then
         let validation_result := _validate_output result expected_output in
         mkResult name description input_data result elapsed end_time_iso
           (if negb (passed validation_result) then "validation_failed"
            else status execution_result)
           (Some validation_result) None None None
       else execution_result in
     let execution_result :=
       if negb (is_none expected_behavior) then
         let behavior_result := _check_behavior result expected_behavior in
         mkResult name description input_data result elapsed end_time_iso
           (if negb (passed behavior_result) then "behavior_failed"
            else status execution_result)
           (validation execution_result) (Some behavior_result) None None
       else execution_result in
     Returned execution_result)
  with
  | Returned r => Returned r
  | Raised e =>
      name ← py_get use_case "name" (PyStr "Unnamed Use Case");
      description ← py_get use_case "description" (PyStr "");
      input_data ← py_get use_case "input" (PyDict []);
      Returned (mkResult name description input_data PyNone elapsed end_time_iso
                  "error" None None (Some (exn_msg e)) (Some (exn_class_name (exn_cls e))))
  end.

End UseCaseExecutor.

(** [len([r for r in results if r['status'] == s])]. *)
Definition count_status (s : string) (results : list execution_result) : nat :=
  length (List.filter (fun r => String.eqb (status r) s) results).

(** [generate_report]; [self_results] is the executor's own list, used when
    the argument is [None], and [now_iso] the clock reading. *)
Definition generate_report (self_results : list execution_result)
    (results : option (list execution_result)) (now_iso : string) : outcome report :=
  let results := default self_results results in
  if Nat.eqb (length results) 0 then Returned (ReportMessage "No results to report")
  else
    let total_cases := length results in
    let successful_cases := count_status "success" results in
    let validation_failed := count_status "validation_failed" results in
    let behavior_failed := count_status "behavior_failed" results in
    let error_cases := count_status "error" results in
    avg_execution_time ←
      py_truediv (foldr Qplus 0%Q (map execution_time_seconds results))
                 (inject_Z (Z.of_nat total_cases));
    ratio ← py_truediv (inject_Z (Z.of_nat successful_cases))
                       (inject_Z (Z.of_nat total_cases));
    Returned
      (ReportSummary
         (mkSummary total_cases successful_cases validation_failed behavior_failed
                    error_cases (ratio * 100)%Q (py_round2 avg_execution_time))
         results now_iso).

(** ** Vocabulary of the statements *)

(** The dict every thread-config function returns. *)
Definition thread_config (thread_id : string) : value :=
  PyDict [("configurable", PyDict [("thread_id", PyStr thread_id)])].

(** [k in v] for a result that may or may not be a dict: only a dict has
    keys. *)
Definition has_key (v : value) (k : string) : bool :=
  match v with
  | PyDict d => dict_mem d k
  | _ => false
  end.

(** An instance of [str] for the concrete examples: exact on [None],
    booleans, integers and strings, which is all the examples print; the
    rendering of floats and containers is left out. *)
Definition str_of_simple (v : value) : string :=
  match v with
  | PyNone => "None"
  | PyBool b => if b then "True" else "False"
  | PyInt n => str_of_Z n
  | PyStr s => s
  | PyFloat _ => "<float>"
  | PyList _ => "<list>"
  | PyDict _ => "<dict>"
  end.


(** *** The retry table *)

(** How one attempt of a retry loop ends, as the [except] clauses sort it:
    a result that fails output validation raises [ValueError] and so counts
    as a validation failure. *)
Inductive attempt_kind : Type :=
| Succeeds
| FailsValidation
| TimesOut
| FailsOtherwise.

Definition attempt_class (valid_out : value -> bool) (o : outcome value) : attempt_kind :=
  match o with
  | Returned r => if valid_out r then Succeeds else FailsValidation
  | Raised e =>
      if is_validation_exn e then FailsValidation
      else if is_timeout_exn e then TimesOut
      else FailsOtherwise
  end.

Definition retried (k : attempt_kind) : bool :=
  match k with
  | TimesOut | FailsOtherwise => true
  | _ => false
  end.

(** Attempt [a] takes place: every attempt before it failed in a way that
    is retried. *)
Definition reached (kind : nat -> attempt_kind) (a : nat) : Prop :=
  forall k, (k < a)%nat -> retried (kind k) = true.

(** The retry table of the spec, read on a finished run [run] of a loop
    whose attempt [a] ends as [o a]: the outcome with the final world, which
    holds the number of compute calls and the sleeps. *)
Record retry_policy (retry_delay : Z) (terminal : exn_class) (valid_in : bool)
    (valid_out : value -> bool) (o : nat -> outcome value)
    (run : outcome value * world) : Prop := RetryPolicy {
  at_most_three_attempts :
    (calls (snd run) <= 3)%nat /\ (length (delays (snd run)) <= 2)%nat;
  invalid_input_is_terminal :
    valid_in = false ->
    (exists msg, fst run = Raised (Exn terminal msg)) /\
    calls (snd run) = 0%nat /\ delays (snd run) = [];
  validation_is_terminal :
    forall a, (a < 3)%nat -> valid_in = true ->
      reached (fun k => attempt_class valid_out (o k)) a ->
      attempt_class valid_out (o a) = FailsValidation ->
      (exists msg, fst run = Raised (Exn terminal msg)) /\
      calls (snd run) = S a /\ length (delays (snd run)) = a;
  timeout_backoff :
    forall a, (a < 2)%nat -> valid_in = true ->
      reached (fun k => attempt_class valid_out (o k)) a ->
      attempt_class valid_out (o a) = TimesOut ->
      delays (snd run) !! a = Some (retry_delay * (Z.of_nat a + 1)) /\
      (S a < calls (snd run))%nat;
  error_backoff :
    forall a, (a < 2)%nat -> valid_in = true ->
      reached (fun k => attempt_class valid_out (o k)) a ->
      attempt_class valid_out (o a) = FailsOtherwise ->
      delays (snd run) !! a = Some (retry_delay * 2 ^ Z.of_nat a) /\
      (S a < calls (snd run))%nat;
  retries_then_success :
    forall e0 e1 r, valid_in = true ->
      o 0%nat = Raised e0 -> is_validation_exn e0 = false ->
      o 1%nat = Raised e1 -> is_validation_exn e1 = false ->
      o 2%nat = Returned r -> valid_out r = true ->
      fst run = Returned r /\ calls (snd run) = 3%nat /\
      delays (snd run) = [retry_delay * 2 ^ 0; retry_delay * 2 ^ 1]
}.

(** What the [except] clauses of a node run see of an attempt: a returned
    result ends in the [AttributeError] of the [validate_output] lookup. *)
Definition attempt_seen (class_name : string) (o : outcome value) : outcome value :=
  match o with
  | Returned _ =>
      Raised (Exn AttributeError
                ("'" +:+ class_name +:+ "' object has no attribute 'validate_output'"))
  | Raised e => Raised e
  end.

(** The message of the [NameError] that every [raise NodeExecutionError]
    of the node runs ends in. *)
Definition unbound_NodeExecutionError : string :=
  "name 'NodeExecutionError' is not defined".

(** The common shape of the three retry loops of the sources, with their
    literals as parameters; [timeout_clause] tells whether the loop has an
    [except asyncio.TimeoutError] clause. Each loop is shown below to be an
    instance, and the table is proved once on this shape. *)
Section RetryLoop.

Variable valid_in : bool.
Variable valid_out : value -> bool.
Variable o : nat -> nat -> outcome value.
Variable retry_delay : Z.
Variable timeout_clause : bool.
Variable terminal : exn_class.
Variables msg_in msg_out msg_timeout msg_unexpected : string.
Variables msg_validation msg_failed : string -> string.

Definition retry_loop : M value :=
  let max_retries := 3%nat in
  for_each (seq 0 max_retries)
    (fun attempt =>
       try_except
         (if negb valid_in
          then raise (Exn ValueError msg_in)
          else
            result ← await_compute (o attempt);
            if negb (valid_out result)
            then raise (Exn ValueError msg_out)
            else mret (Some result))
         (fun e =>
            if is_validation_exn e then
              raise (Exn terminal (msg_validation (exn_msg e)))
            else if timeout_clause && is_timeout_exn e then
              if (attempt =? max_retries - 1)%nat then
                raise (Exn terminal msg_timeout)
              else
                _ ← sleep (retry_delay * (Z.of_nat attempt + 1));
                mret None
            else
              if (attempt =? max_retries - 1)%nat then
                raise (Exn terminal (msg_failed (exn_msg e)))
              else
                _ ← sleep (retry_delay * 2 ^ Z.of_nat attempt);
                mret None))
    (raise (Exn terminal msg_unexpected)).

End RetryLoop.

(** *** Chains of stages *)

(** The node that follows the head of a suffix of the stage list. *)
Definition following (suffix : list string) : node_id :=
  match suffix with
  | [] => END
  | t :: _ => Stage t
  end.

(** A linear chain of edges over the stages, [link s t] joining a stage to
    the next one and the last stage leading to [END]. *)
Fixpoint chain (link : string -> string -> edge) (stages : list string) : list edge :=
  match stages with
  | [] => []
  | s :: rest =>
      match rest with
      | [] => [Edge (Stage s) END]
      | t :: _ => link s t :: chain link rest
      end
  end.

Definition pipeline_link (s t : string) : edge := Edge (Stage s) (Stage t).

Definition state_graph_link (s t : string) : edge :=
  CondEdge (Stage s) _get_next_stage [("continue", Stage t); ("end", END)].

Definition chain_edge (link : string -> string -> edge) (s : string)
    (suffix : list string) : edge :=
  match suffix with
  | [] => Edge (Stage s) END
  | t :: _ => link s t
  end.

(** PIPELINE behaviour in the words of the spec: the stages run one after
    the other in the declared order, each node function receiving the state
    left by the one before; the result lists the stages run. *)
Fixpoint run_stages (merge : AgentState -> AgentState -> AgentState)
    (table : gmap string node_fn) (stages : list string)
    (visited : list string) (st : AgentState) : M (list string * AgentState) :=
  match stages with
  | [] => mret (visited, st)
  | s :: rest =>
      match table !! s with
      | None => raise (Exn ValueError ("unknown node " +:+ s))
      | Some f =>
          returned ← f st;
          run_stages merge table rest (visited ++ [s])%list (merge st returned)
      end
  end.

(** Where the edges that leave a node lead: all that [next_node] looks at. *)
Definition edge_targets (g : StateGraph) (st : AgentState) (n : node_id)
    : list (option node_id) :=
  map (edge_target st) (out_edges g n).

(** A node function that returns a state whatever happens. *)
Definition never_raises (f : node_fn) : Prop :=
  forall st w, exists st' w', f st w = (Returned st', w').


(** The node table of the default configuration. *)
Definition default_table (py_str : value -> string)
    (_get_node_instance : string -> string -> outcome (value -> M value))
    : gmap string node_fn :=
  <["llm_3" := llm_3_tool_node py_str _get_node_instance]>
    (<["llm_2" := llm_2_tool_node py_str _get_node_instance]>
       (<["llm_1" := llm_1_tool_node py_str _get_node_instance]> ∅)).

(** An expected entry is met by the actual output: the key is there and
    its value is equal. *)
Definition present_with_equal_value (actual_output : value) (key : string)
    (expected_value : value) : Prop :=
  exists actual_value,
    py_getitem actual_output key = Returned actual_value /\
    py_eq actual_value expected_value = true.

(** *** Fixtures of the examples *)

(** A compute that fails twice and then answers. *)
Definition flaky_compute (k : nat) (input_data : value) : outcome value :=
  match k with
  | 0%nat => Raised (Exn OtherException "connection reset")
  | 1%nat => Raised (Exn TimeoutError "")
  | _ => Returned (PyStr "ok")
  end.

(** A traversal that fails in the same way twice and then returns a state
    with results. *)
Definition flaky_ainvoke (k : nat) (state : AgentState) : outcome value :=
  match k with
  | 0%nat => Raised (Exn OtherException "connection reset")
  | 1%nat => Raised (Exn TimeoutError "")
  | _ => Returned (PyDict [("results", PyDict [])])
  end.

(** Three stages [a], [b], [c], each appending its name to the string it
    receives: the first takes the input, the others the result before. *)
Definition append_name (stage : string) (source : AgentState -> option value) : node_fn :=
  fun state =>
    match source state with
    | Some (PyStr s) => mret (set_stage_result state stage (PyStr (s +:+ stage)))
    | _ => raise (Exn TypeError "expected a string")
    end.

Definition abc_table : gmap string node_fn :=
  <["c" := append_name "c" (fun st => results st !! "b")]>
    (<["b" := append_name "b" (fun st => results st !! "a")]>
       (<["a" := append_name "a" (fun st => Some (input st))]> ∅)).

Definition abc_start : AgentState :=
  mkState (PyStr "x") [HumanMessage "x"] ∅ ∅ (Some "a") None ∅.

(** A node table in which the node of [llm_1] always fails and the other
    nodes append their name to what they receive. *)
Definition failing_first (node_name node_type : string) : outcome (value -> M value) :=
  Returned (fun input_data =>
    if String.eqb node_name "llm_1"
    then raise (Exn NodeExecutionError "Failed to execute llm_1 after 3 attempts: down")
    else mret (PyStr (str_of_simple input_data +:+ "|" +:+ node_name))).

(** A use case with both an expected output and an expected behaviour, and
    an agent that answers [{"status": "y"}]. *)
Definition both_checks_use_case : value :=
  PyDict [("name", PyStr "status check");
          ("input", PyStr "ping");
          ("expected_output", PyDict [("status", PyStr "x")]);
          ("expected_behavior",
           PyDict [("checks",
                    PyList [PyDict [("type", PyStr "has_key");
                                    ("value", PyStr "trace_id")]])])].

Definition status_y_agent (input_data : value) : outcome value :=
  Returned (PyDict [("status", PyStr "y")]).

(** The value a finished computation returned, if it returned. *)
Definition returned_value {A : Type} (o : outcome A) : option A :=
  match o with
  | Returned a => Some a
  | Raised _ => None
  end.

(** ** Further code of the same modules *)

(** *** state.py and nodes.py *)

Section MoreState.

Variable py_str : value -> string.

(** [create_initial_state(input_data, **kwargs)]; of the keyword arguments
    only [context], [results], [current_stage], [error] and [metadata] are
    read. *)
Definition create_initial_state (input_data : value) (kwargs : updates) : AgentState :=
  {| input := input_data;
     messages := [HumanMessage (py_str input_data)];
     context := default ∅ (u_context kwargs);
     results := default ∅ (u_results kwargs);
     current_stage := default None (u_current_stage kwargs);
     error := default None (u_error kwargs);
     metadata := default ∅ (u_metadata kwargs) |}.

(** [create_custom_node(stage_name, logic_func)]: the call
    [clear_error(state)] builds a cleared copy and drops it. *)
Definition create_custom_node (stage_name : string) (logic_func : AgentState -> M value)
    : node_fn :=
  fun state =>
    try_except
      (let _ := clear_error state in
       result ← logic_func state;
       let state := set_stage_result state stage_name result in
       mret state)
      (fun e => mret (set_error state (stage_name +:+ " error: " +:+ exn_msg e))).

End MoreState.

Section NodeInstances.

(** A node object, and the two dynamic imports followed by the constructor
    call, [getattr(__import__(...), class_name)(config)], which fail when the
    module or the class is missing. *)
Variable instance : Type.
Variable import_llm_node : string -> outcome instance.
Variable import_tool_node : string -> outcome instance.

(** [_get_node_instance(node_name, node_type)] over the module-level dict
    [_node_instances], returned with the result. *)
Definition _get_node_instance (node_name node_type : string)
    (_node_instances : gmap string instance)
    : outcome instance * gmap string instance :=
  let key := node_name +:+ "_" +:+ node_type in
  match _node_instances !! key with
  | Some node => (Returned node, _node_instances)
  | None =>
      match (if String.eqb node_type "llm"
             then import_llm_node node_name
             else import_tool_node node_name) with
      | Returned node => (Returned node, <[key := node]> _node_instances)
      | Raised e => (Raised e, _node_instances)
      end
  end.

End NodeInstances.

Arguments _get_node_instance {instance}.

(** *** checkpointer.py *)

(** [str.lower] on ASCII text: the letters A to Z are mapped, every other
    byte is kept. *)
Definition lower_ascii (c : ascii) : ascii :=
  let n := nat_of_ascii c in
  if ((65 <=? n) && (n <=? 90))%nat then ascii_of_nat (n + 32) else c.

Fixpoint lower (s : string) : string :=
  match s with
  | EmptyString => EmptyString
  | String c s' => String (lower_ascii c) (lower s')
  end.

Inductive checkpointer : Type :=
| SqliteSaver (conn_string : string)
| MemorySaver.

Section Checkpointer.

(** The process environment, and [SqliteSaver.from_conn_string], which may
    fail to open the database. *)
Variable environ : string -> option string.
Variable from_conn_string : string -> outcome checkpointer.

Definition getenv (name dflt : string) : string := default dflt (environ name).

Definition create_checkpointer : option checkpointer :=
  if String.eqb (lower (getenv "ENABLE_CHECKPOINTER" "true")) "false" then None
  else
    Some (catching
            (let db_path := getenv "CHECKPOINTER_DB_PATH" "checkpoints.db" in
             from_conn_string db_path)
            (fun e => MemorySaver)).

Definition create_memory_checkpointer : checkpointer := MemorySaver.

Record CheckpointerManager : Type :=
  mkCheckpointerManager { manager_checkpointer : option checkpointer }.

Definition CheckpointerManager_init : CheckpointerManager :=
  mkCheckpointerManager create_checkpointer.

Definition is_enabled (self : CheckpointerManager) : bool :=
  match manager_checkpointer self with
  | Some _ => true
  | None => false
  end.

Definition get_checkpointer (self : CheckpointerManager) : option checkpointer :=
  manager_checkpointer self.

End Checkpointer.

(** *** agent.py *)

Section Agent.

(** [self.graph.get_graph_info()] of the compiled graph. *)
Variable graph_get_graph_info : outcome value.

Definition LangGraphAgent_get_graph_info : value :=
  catching graph_get_graph_info
    (fun e =>
       PyDict [("error", PyStr ("Could not retrieve graph info: " +:+ exn_msg e));
               ("agent", PyStr "Custom Agent");
               ("framework", PyStr "langgraph")]).

(** [health_check]; [self.config] is [config or Config()], never [None]. *)
Definition LangGraphAgent_health_check : value :=
  catching
    (let graph_info := LangGraphAgent_get_graph_info in
     has_error ← py_contains graph_info (PyStr "error");
     Returned (PyDict [("status", PyStr "healthy");
                       ("agent", PyStr "Custom Agent");
                       ("framework", PyStr "langgraph");
                       ("graph_available", PyBool (negb has_error));
                       ("config_loaded", PyBool true)]))
    (fun e =>
       PyDict [("status", PyStr "unhealthy");
               ("agent", PyStr "Custom Agent");
               ("framework", PyStr "langgraph");
               ("error", PyStr (exn_msg e))]).

End Agent.

(** *** use_case_executor.py: batches *)

Section Batch.

Variable py_str : value -> string.
Variable get_agent : outcome agent.

(** The clock readings taken around the [i]-th use case of a batch: the
    elapsed seconds and the ISO end time. *)
Variable clock : nat -> Q * string.

(** [open(file_path)] followed by [json.load]: the parsed document, or the
    exception of a missing file or of malformed JSON. *)
Variable load_json : string -> outcome value.

(** The field [self.agent] after a call of [load_agent]. *)
Definition agent_after_load (self_agent : option agent) : option agent :=
  match load_agent get_agent self_agent with
  | Returned loaded => Some loaded
  | Raised _ => self_agent
  end.

(** The loop of [execute_use_cases_from_file] from the [i]-th use case on. *)
Fixpoint execute_each (self_agent : option agent) (i : nat) (use_cases : list value)
    : outcome (list execution_result) :=
  match use_cases with
  | [] => Returned []
  | use_case :: rest =>
      result ← execute_use_case py_str get_agent (fst (clock i)) (snd (clock i))
                 self_agent use_case;
      results ← execute_each (agent_after_load self_agent) (S i) rest;
      Returned (result :: results)
  end.

(** [execute_use_cases_from_file]: what it returns, with the executor's own
    list [self.results] after the call. *)
Definition execute_use_cases_from_file (self_agent : option agent)
    (self_results : list execution_result)
    (file_path : string) : list execution_result * list execution_result :=
  match
    (use_cases_data ← load_json file_path;
     use_cases ← py_get use_cases_data "use_cases" (PyList []);
     if negb (py_truthy use_cases) then Returned None
     else
       items ← py_iter use_cases;
       results ← execute_each self_agent 0 items;
       Returned (Some results))
  with
  | Returned (Some results) => (results, (self_results ++ results)%list)
  | Returned None => ([], self_results)
  | Raised _ => ([], self_results)
  end.

End Batch.

(** ** Further vocabulary of the statements *)

(** A string made of whitespace only (the empty string included). *)
Fixpoint all_space (s : string) : bool :=
  match s with
  | EmptyString => true
  | String c s' => is_py_space c && all_space s'
  end.

(** The seconds a finished run spent in [asyncio.sleep]. *)
Definition total_delay (w : world) : Z := foldr Z.add 0 (delays w).

(** The exception a loop raises once its last attempt has failed with the
    error [e]. *)
Definition exhausted_exn (terminal : exn_class) (timeout_clause : bool)
    (msg_timeout : string) (msg_failed : string -> string) (e : exn) : exn :=
  if timeout_clause && is_timeout_exn e
  then Exn terminal msg_timeout
  else Exn terminal (msg_failed (exn_msg e)).

(** The stage whose result a wrapper looks for: the one before its own in
    the list written in the wrappers. *)
Definition previous_stage (stage : string) : option string :=
  if String.eqb stage "llm_2" then Some "llm_1"
  else if String.eqb stage "llm_3" then Some "llm_2"
  else None.

(** The six check types [_check_behavior] knows. *)
Definition known_check_type (check_type : value) : bool :=
  py_eq check_type (PyStr "contains") || py_eq check_type (PyStr "not_contains") ||
  py_eq check_type (PyStr "length_greater_than") ||
  py_eq check_type (PyStr "length_less_than") ||
  py_eq check_type (PyStr "is_dict") || py_eq check_type (PyStr "has_key").

(** The status [execute_use_case] gives a result, from the two checks when
    they are asked for. *)
Definition status_of (validation behavior : option check_result) : string :=
  match behavior with
  | Some b =>
      if passed b then
        match validation with
        | Some v => if passed v then "success" else "validation_failed"
        | None => "success"
        end
      else "behavior_failed"
  | None =>
      match validation with
      | Some v => if passed v then "success" else "validation_failed"
      | None => "success"
      end
  end.

(** The four statuses [execute_use_case] can give. *)
Definition known_status (s : string) : bool :=
  String.eqb s "success" || String.eqb s "validation_failed" ||
  String.eqb s "behavior_failed" || String.eqb s "error".

(** Two results of a batch, one passed and one failed. *)
Definition passed_result : execution_result :=
  mkResult (PyStr "greets") (PyStr "") (PyStr "hello") (PyStr "hi")
    (1 # 2)%Q "2025-01-01T00:00:00" "success" None None None None.

Definition failed_result : execution_result :=
  mkResult (PyStr "answers") (PyStr "") (PyStr "ping") PyNone
    (3 # 2)%Q "2025-01-01T00:00:01" "error" None None (Some "down")
    (Some "GraphExecutionError").

(* ================================================================== *)
(** * Part II. Properties                                              *)
(* ================================================================== *)

(** ** Checkpoint thread ids *)

Lemma append_assoc (a b c : string) : (a +:+ b) +:+ c = a +:+ (b +:+ c).
Proof.
  induction a as [|x a IH]; [done|].
  change (String x ((a +:+ b) +:+ c) = String x (a +:+ (b +:+ c))). by f_equal.
Qed.

Example thread_id_alice :
  get_thread_config "alice" None = thread_config "user_alice".
Proof. reflexivity. Qed.

Example thread_id_alice_s1 :
  get_thread_config "alice" (Some "s1") = thread_config "user_alice_session_s1".
Proof. reflexivity. Qed.

Example versioned_thread_id_default_version :
  get_versioned_thread_config "alice" None None = thread_config "user_alice_vv1.0.0".
Proof. reflexivity. Qed.

(** C2, as stated, fails: the version ["v2"] is appended behind the literal
    ["_v"], which gives ["user_alice_session_s1_vv2"] and not
    ["user_alice_session_s1_v2"]; and an empty [session_id] adds no
    ["_session_"] part. *)
Lemma versioned_thread_id_example_differs :
  get_versioned_thread_config "alice" (Some "v2") (Some "s1")
    <> thread_config "user_alice_session_s1_v2" /\
  get_thread_config "alice" (Some "") <> thread_config "user_alice_session_".
Proof. split; discriminate. Qed.

(** C2, amended. The thread id of a user is ["user_<user_id>"]; with a
    non-empty session id it is ["user_<user_id>_session_<session_id>"], and
    an empty session id counts as absent; the versioned id is that base id
    followed by ["_v<version>"], so the versions ["v2"] and ["2"] with user
    ["alice"] and session ["s1"] give ["user_alice_session_s1_vv2"] and
    ["user_alice_session_s1_v2"]; every call wraps the id as
    [{"configurable": {"thread_id": ...}}]. *)
Theorem thread_ids_are_derived_from_user_session_version :
  (forall user_id,
      get_thread_config user_id None = thread_config ("user_" +:+ user_id)) /\
  (forall user_id session_id, session_id <> "" ->
      get_thread_config user_id (Some session_id)
      = thread_config ("user_" +:+ user_id +:+ "_session_" +:+ session_id)) /\
  (forall user_id,
      get_thread_config user_id (Some "") = thread_config ("user_" +:+ user_id)) /\
  (forall user_id version session_id base,
      get_thread_config user_id session_id = thread_config base ->
      get_versioned_thread_config user_id (Some version) session_id
      = thread_config (base +:+ "_v" +:+ version)) /\
  get_versioned_thread_config "alice" (Some "v2") (Some "s1")
    = thread_config "user_alice_session_s1_vv2" /\
  get_versioned_thread_config "alice" (Some "2") (Some "s1")
    = thread_config "user_alice_session_s1_v2".
Proof.
  repeat split.
  - intros user_id session_id Hne.
    unfold get_thread_config, thread_config, str_opt_truthy.
    destruct (String.eqb_spec session_id "") as [->|_]; [done|].
    cbn [negb default]. by rewrite append_assoc.
  - intros user_id version session_id base.
    unfold get_thread_config, get_versioned_thread_config, thread_config.
    intros [= <-]. cbn [default]. by destruct (str_opt_truthy session_id).
Qed.

Lemma thread_ids_witness :
  "s1" <> "" /\
  get_thread_config "alice" (Some "s1") = thread_config "user_alice_session_s1" /\
  get_versioned_thread_config "alice" (Some "2") (Some "s1")
    = thread_config "user_alice_session_s1_v2".
Proof.
  split; [discriminate|]. split.
  - apply (proj1 (proj2 thread_ids_are_derived_from_user_session_version)).
    discriminate.
  - apply (proj1 (proj2 (proj2 (proj2
             thread_ids_are_derived_from_user_session_version)))
             "alice" "2" (Some "s1") "user_alice_session_s1").
    reflexivity.
Defined.

(** ** The execution state *)

Lemma update_state_no_updates (state : AgentState) : update_state state no_updates = state.
Proof. by destruct state. Qed.

(** C4. [set_stage_result] returns a state whose results map the stage to
    the value, every other entry and every other field being as before (for
    any stage, declared in the graph or not); [add_message] appends the
    message at the end of the old sequence and changes nothing else;
    [set_error] and [clear_error] change only the error field. *)
Theorem state_operations_frame :
  (forall state stage v,
      let state' := set_stage_result state stage v in
      results state' !! stage = Some v /\
      results state' = <[stage := v]> (results state) /\
      input state' = input state /\ messages state' = messages state /\
      context state' = context state /\
      current_stage state' = current_stage state /\
      error state' = error state /\ metadata state' = metadata state) /\
  (forall state msg,
      let state' := add_message state msg in
      messages state' = (messages state ++ [msg])%list /\
      input state' = input state /\ context state' = context state /\
      results state' = results state /\
      current_stage state' = current_stage state /\
      error state' = error state /\ metadata state' = metadata state) /\
  (forall state err,
      let state' := set_error state err in
      error state' = Some err /\ results state' = results state /\
      input state' = input state /\ messages state' = messages state /\
      context state' = context state /\
      current_stage state' = current_stage state /\
      metadata state' = metadata state) /\
  (forall state,
      let state' := clear_error state in
      error state' = None /\ results state' = results state /\
      input state' = input state /\ messages state' = messages state /\
      context state' = context state /\
      current_stage state' = current_stage state /\
      metadata state' = metadata state).
Proof.
  split; [|split; [|split]].
  - intros state stage v. cbn. split; [apply lookup_insert_eq | done].
  - intros state msg. by cbn.
  - intros state err. by cbn.
  - intros state. by cbn.
Qed.

Example set_stage_result_keeps_other_stages :
  let state := mkState (PyStr "x") [] ∅ (<["a" := PyStr "xa"]> ∅) None (Some "boom") ∅ in
  let state' := set_stage_result state "b" (PyStr "xab") in
  results state' !! "a" = Some (PyStr "xa") /\
  results state' !! "b" = Some (PyStr "xab") /\
  error state' = Some "boom".
Proof. cbn. by rewrite lookup_insert_eq, lookup_insert_ne, lookup_insert_eq. Qed.

(** ** Graph-level input validation *)

(** C9. A value that is neither null nor a string, a dict or a list passes
    graph-level input validation whatever it is; integers and floats are
    such values. *)
Theorem graph_input_other_types_accepted (v : value) :
  is_none v = false -> is_str v = false -> is_dict v = false -> is_list v = false ->
  _validate_graph_input v = true.
Proof. by destruct v. Qed.

Lemma graph_input_other_types_witness :
  _validate_graph_input (PyInt 42) = true /\
  _validate_graph_input (PyFloat (5 # 2)) = true /\
  _validate_graph_input (PyBool false) = true.
Proof.
  split; [|split]; apply graph_input_other_types_accepted; reflexivity.
Defined.

Example graph_input_shapes :
  _validate_graph_input PyNone = false /\
  _validate_graph_input (PyStr "") = false /\
  _validate_graph_input (PyStr "  ") = false /\
  _validate_graph_input (PyStr " x ") = true /\
  _validate_graph_input (PyList []) = false /\
  _validate_graph_input (PyDict []) = false /\
  _validate_graph_input (PyDict [("q", PyInt 1)]) = true.
Proof. repeat split. Qed.

(** ** The retry loops *)

(** Each loop of the sources is the common shape with its own literals.
    In a node run every terminal raise ends in the same [NameError] and a
    returned result is seen by the [except] clauses as an [AttributeError]
    ([attempt_seen]), so no result passes. *)

Lemma llm_3_run_is_retry_loop compute input_data w :
  Llm_3LLMNode_run compute input_data w =
  retry_loop (validate_input input_data) (fun _ => true)
    (fun _ k => attempt_seen "Llm_3LLMNode" (compute k input_data)) 2 true NameError
    "Invalid input data for llm_3" "Invalid output from llm_3"
    unbound_NodeExecutionError unbound_NodeExecutionError
    (fun _ => unbound_NodeExecutionError) (fun _ => unbound_NodeExecutionError) w.
Proof.
  unfold Llm_3LLMNode_run, retry_loop, for_each, try_except, wait_for, await_compute,
    validate_output, raise_NodeExecutionError, sleep, raise, attempt_seen,
    mbind, mret, M_bind, M_ret.
  destruct (validate_input input_data); cbn; [|done].
  repeat match goal with
  | |- context [compute ?k input_data] =>
      let e := fresh "e" in
      destruct (compute k input_data) as [?|e]; cbn;
      [ | destruct (is_validation_exn e); cbn; [ | destruct (is_timeout_exn e); cbn ] ]
  end; reflexivity.
Qed.

Lemma llm_2_tool_run_is_retry_loop compute input_data w :
  Llm_2ToolNode_run compute input_data w =
  retry_loop (validate_input input_data) (fun _ => true)
    (fun _ k => attempt_seen "Llm_2ToolNode" (compute k input_data)) 1 false NameError
    "Invalid input data for llm_2" "Invalid output from llm_2"
    unbound_NodeExecutionError unbound_NodeExecutionError
    (fun _ => unbound_NodeExecutionError) (fun _ => unbound_NodeExecutionError) w.
Proof.
  unfold Llm_2ToolNode_run, retry_loop, for_each, try_except, await_compute,
    validate_output, raise_NodeExecutionError, sleep, raise, attempt_seen,
    mbind, mret, M_bind, M_ret.
  destruct (validate_input input_data); cbn; [|done].
  repeat match goal with
  | |- context [compute ?k input_data] =>
      let e := fresh "e" in
      destruct (compute k input_data) as [?|e]; cbn;
      [ | destruct (is_validation_exn e); cbn ]
  end; reflexivity.
Qed.

Lemma execute_is_retry_loop py_str config ainvoke input_data :
  execute py_str config ainvoke input_data =
  retry_loop (_validate_graph_input input_data) _validate_graph_output
    (fun attempt k => ainvoke k (initial_state py_str config input_data attempt 3))
    2 true GraphExecutionError
    "Invalid input data for graph execution" "Invalid output from graph execution"
    "Graph execution timeout after 3 attempts"
    "Unexpected error in graph execution"
    (fun m => "Graph validation failed: " +:+ m)
    (fun m => "Graph execution failed after 3 attempts: " +:+ m).
Proof. reflexivity. Qed.

Section RetryLoopFacts.

Variable valid_in : bool.
Variable valid_out : value -> bool.
Variable o : nat -> nat -> outcome value.
Variable retry_delay : Z.
Variable timeout_clause : bool.
Variable terminal : exn_class.
Variables msg_in msg_out msg_timeout msg_unexpected : string.
Variables msg_validation msg_failed : string -> string.

Let loop := retry_loop valid_in valid_out o retry_delay timeout_clause terminal
              msg_in msg_out msg_timeout msg_unexpected msg_validation msg_failed.

Ltac unfold_loop :=
  unfold loop, retry_loop, for_each, try_except, await_compute, sleep, raise,
    initial_world, delays, mbind, mret, M_bind, M_ret; cbn.

(** The ways attempt [k] can end, with the branch each one takes. *)
Ltac split_attempt k :=
  let r := fresh "r" in let e := fresh "e" in
  let Ho := fresh "Ho" in let Hv := fresh "Hv" in
  let Ht := fresh "Ht" in
  destruct (o k k) as [r|e] eqn:Ho; cbn in *;
  [ destruct (valid_out r) eqn:Hv; cbn in *
  | destruct (is_validation_exn e) eqn:Hv; cbn in *;
    [ | destruct (is_timeout_exn e) eqn:Ht; destruct timeout_clause; cbn in * ] ].

Ltac all_attempts :=
  split_attempt 0%nat; try split_attempt 1%nat; try split_attempt 2%nat.

Lemma loop_at_most_three :
  (calls (snd (loop initial_world)) <= 3)%nat /\
  (length (delays (snd (loop initial_world))) <= 2)%nat.
Proof.
  unfold_loop. destruct valid_in; cbn; [|split; lia].
  all_attempts; cbn; split; lia.
Qed.

(** Invalid input: the loop ends at once, in whatever world it starts, and
    leaves the world as it found it. *)
Lemma loop_invalid_input w :
  valid_in = false ->
  loop w = (Raised (Exn terminal (msg_validation msg_in)), w).
Proof. intros Hin. unfold_loop. by rewrite Hin. Qed.

Lemma loop_validation_terminal a :
  (a < 3)%nat -> valid_in = true ->
  reached (fun k => attempt_class valid_out (o k k)) a ->
  attempt_class valid_out (o a a) = FailsValidation ->
  (exists msg, fst (loop initial_world) = Raised (Exn terminal msg)) /\
  calls (snd (loop initial_world)) = S a /\
  length (delays (snd (loop initial_world))) = a.
Proof.
  intros Ha Hin Hreach Hkind.
  assert (H0 := Hreach 0%nat). assert (H1 := Hreach 1%nat).
  unfold attempt_class in *. unfold_loop. rewrite Hin. cbn.
  destruct a as [|[|[|a]]]; [| | |lia];
    all_attempts;
    try discriminate;
    try (discriminate H0; lia); try (discriminate H1; lia);
    cbn; eauto.
Qed.

(** A result that fails output validation ends the loop with the
    validation message, at whichever attempt it comes. *)
Lemma loop_invalid_output a r :
  (a < 3)%nat -> valid_in = true ->
  reached (fun k => attempt_class valid_out (o k k)) a ->
  o a a = Returned r -> valid_out r = false ->
  fst (loop initial_world) = Raised (Exn terminal (msg_validation msg_out)) /\
  calls (snd (loop initial_world)) = S a /\
  length (delays (snd (loop initial_world))) = a.
Proof.
  intros Ha Hin Hreach Hret Hbad.
  assert (H0 := Hreach 0%nat). assert (H1 := Hreach 1%nat).
  unfold attempt_class in *. unfold_loop. rewrite Hin. cbn.
  destruct a as [|[|[|a]]]; [| | |lia];
    all_attempts;
    try discriminate;
    try (discriminate H0; lia); try (discriminate H1; lia);
    try (injection Hret as ->); try congruence;
    cbn; eauto.
Qed.

Lemma loop_timeout_backoff a :
  (a < 2)%nat -> valid_in = true ->
  reached (fun k => attempt_class valid_out (o k k)) a ->
  attempt_class valid_out (o a a) = TimesOut ->
  delays (snd (loop initial_world)) !! a = Some (retry_delay * (Z.of_nat a + 1)) /\
  (S a < calls (snd (loop initial_world)))%nat.
Proof.
  intros Ha Hin Hreach Hkind.
  assert (H0 := Hreach 0%nat).
  unfold attempt_class in *. unfold_loop. rewrite Hin. cbn.
  destruct a as [|[|a]]; [| |lia];
    all_attempts;
    try discriminate;
    try (discriminate H0; lia);
    cbn; (split; [try reflexivity; f_equal; lia | lia]).
Qed.

Lemma loop_error_backoff a :
  (a < 2)%nat -> valid_in = true ->
  reached (fun k => attempt_class valid_out (o k k)) a ->
  attempt_class valid_out (o a a) = FailsOtherwise ->
  delays (snd (loop initial_world)) !! a = Some (retry_delay * 2 ^ Z.of_nat a) /\
  (S a < calls (snd (loop initial_world)))%nat.
Proof.
  intros Ha Hin Hreach Hkind.
  assert (H0 := Hreach 0%nat).
  unfold attempt_class in *. unfold_loop. rewrite Hin. cbn.
  destruct a as [|[|a]]; [| |lia];
    all_attempts;
    try discriminate;
    try (discriminate H0; lia);
    cbn; (split; [try reflexivity; f_equal; lia | lia]).
Qed.

Lemma loop_retries_then_success e0 e1 r :
  valid_in = true ->
  o 0%nat 0%nat = Raised e0 -> is_validation_exn e0 = false ->
  o 1%nat 1%nat = Raised e1 -> is_validation_exn e1 = false ->
  o 2%nat 2%nat = Returned r -> valid_out r = true ->
  fst (loop initial_world) = Returned r /\
  calls (snd (loop initial_world)) = 3%nat /\
  delays (snd (loop initial_world)) = [retry_delay * 2 ^ 0; retry_delay * 2 ^ 1].
Proof.
  intros Hin H0 Hv0 H1 Hv1 H2 Hv2.
  unfold_loop. rewrite Hin. cbn.
  rewrite H0; cbn. rewrite Hv0; cbn.
  destruct (timeout_clause && is_timeout_exn e0); cbn;
    rewrite H1; cbn; rewrite Hv1; cbn;
    destruct (timeout_clause && is_timeout_exn e1); cbn;
    rewrite H2; cbn; rewrite Hv2; cbn;
    (split; [reflexivity | split; [reflexivity | repeat f_equal; lia]]).
Qed.

Lemma loop_follows_policy :
  retry_policy retry_delay terminal valid_in valid_out (fun k => o k k)
    (loop initial_world).
Proof.
  constructor.
  - apply loop_at_most_three.
  - intros Hin. rewrite (loop_invalid_input _ Hin). cbn. eauto.
  - apply loop_validation_terminal.
  - apply loop_timeout_backoff.
  - apply loop_error_backoff.
  - apply loop_retries_then_success.
Qed.

End RetryLoopFacts.

(** The graph-level loop follows the retry table: at most 3 attempts; a
    validation error ends the loop at once; after a timeout on attempt
    [a < 2] the next attempt comes after [2 * (a + 1)] seconds and after
    another error after [2 * 2 ^ a]; and an [ainvoke] that fails twice with
    non-validation errors and then returns a valid result yields that
    result after exactly the delays 2 and 4. *)
Lemma execute_follows_policy
    (py_str : value -> string) (config : Config)
    (ainvoke : nat -> AgentState -> outcome value) (input_data : value) :
  retry_policy 2 GraphExecutionError (_validate_graph_input input_data)
    _validate_graph_output
    (fun a => ainvoke a (initial_state py_str config input_data a 3))
    (execute py_str config ainvoke input_data initial_world).
Proof.
  rewrite execute_is_retry_loop.
  apply (loop_follows_policy _ _
           (fun attempt k => ainvoke k (initial_state py_str config input_data attempt 3))).
Qed.

(** C1. The claim holds for the graph-level [execute] and fails for the
    node-level runs, at its last clause: with a compute that fails twice
    with non-validation errors and then returns a result, [execute] returns
    the result after the delays 2 and 4, but the run of the LLM node and
    the run of the tool node do not return it. The returned result is
    handed to [self.validate_output], which no class defines; the
    [AttributeError] is caught by [except Exception] on the last attempt,
    whose [raise NodeExecutionError] names an unbound class, and the run
    ends in [NameError] after three compute calls and two delays. A compute
    that returns on every call, as the shipped placeholder does, ends the
    same way. *)
Theorem node_runs_lose_the_successful_result :
  Llm_3LLMNode_run (fun _ _ => Returned (PyStr "done")) (PyStr "q") initial_world
  = (Raised (Exn NameError "name 'NodeExecutionError' is not defined"),
     World 3 [Invoke 0; Sleep 2; Invoke 1; Sleep 4; Invoke 2]) /\
  Llm_3LLMNode_run flaky_compute (PyStr "q") initial_world
  = (Raised (Exn NameError "name 'NodeExecutionError' is not defined"),
     World 3 [Invoke 0; Sleep 2; Invoke 1; Sleep 4; Invoke 2]) /\
  Llm_2ToolNode_run flaky_compute (PyStr "q") initial_world
  = (Raised (Exn NameError "name 'NodeExecutionError' is not defined"),
     World 3 [Invoke 0; Sleep 1; Invoke 1; Sleep 2; Invoke 2]) /\
  execute str_of_simple default_config flaky_ainvoke (PyStr "q") initial_world
  = (Returned (PyDict [("results", PyDict [])]),
     World 3 [Invoke 0; Sleep 2; Invoke 1; Sleep 4; Invoke 2]).
Proof. split; [|split; [|split]]; reflexivity. Qed.

Example validation_error_ends_llm_run :
  Llm_3LLMNode_run (fun _ _ => Raised (Exn TypeError "bad prompt")) (PyStr "q")
    initial_world
  = (Raised (Exn NameError "name 'NodeExecutionError' is not defined"),
     World 1 [Invoke 0]).
Proof. reflexivity. Qed.

(** ** Validation short-circuit *)

(** C3, as stated, fails: the empty string passes the input validation of a
    node, and the run of a node given the empty string goes on to the
    compute, which is called three times with two delays in between. *)
Lemma empty_string_passes_node_validation :
  validate_input (PyStr "") = true /\
  snd (Llm_3LLMNode_run (fun _ _ => Returned (PyStr "done")) (PyStr "") initial_world)
  = World 3 [Invoke 0; Sleep 2; Invoke 1; Sleep 4; Invoke 2].
Proof. split; reflexivity. Qed.

(** C3, amended. The input validation of a node requires only a non-null
    input: given a null input the run of a node ends at once by raising,
    with no compute call and no delay. The empty string, list and dict
    (and null) are refused by the graph-level validation, and [execute]
    then fails at once as a [GraphExecutionError], again with no attempt
    and no delay. *)
Theorem validation_short_circuit
    (py_str : value -> string) (config : Config)
    (compute : nat -> value -> outcome value)
    (ainvoke : nat -> AgentState -> outcome value) :
  (forall v, validate_input v = negb (is_none v)) /\
  (forall w, exists e, Llm_3LLMNode_run compute PyNone w = (Raised e, w)) /\
  (forall w, exists e, Llm_2ToolNode_run compute PyNone w = (Raised e, w)) /\
  (forall v w, _validate_graph_input v = false ->
      execute py_str config ainvoke v w
      = (Raised (Exn GraphExecutionError
                   "Graph validation failed: Invalid input data for graph execution"), w)) /\
  _validate_graph_input (PyStr "") = false /\
  _validate_graph_input (PyList []) = false /\
  _validate_graph_input (PyDict []) = false /\
  _validate_graph_input PyNone = false.
Proof.
  split; [done|]. split; [|split; [|split; [|done]]].
  - intros w. by eexists.
  - intros w. by eexists.
  - intros v w Hv. rewrite execute_is_retry_loop. by rewrite loop_invalid_input.
Qed.

Lemma validation_short_circuit_witness :
  _validate_graph_input (PyStr "") = false /\
  execute str_of_simple default_config (fun _ _ => Returned (PyDict [("results", PyDict [])]))
    (PyStr "") initial_world
  = (Raised (Exn GraphExecutionError
               "Graph validation failed: Invalid input data for graph execution"),
     initial_world).
Proof.
  split; [reflexivity|].
  apply (proj1 (proj2 (proj2 (proj2
           (validation_short_circuit str_of_simple default_config
              (fun _ _ => Returned PyNone)
              (fun _ _ => Returned (PyDict [("results", PyDict [])]))))))).
  reflexivity.
Defined.

(** ** Graph-level output validation *)

(** C7, as stated, fails: a result that is not a dict, such as an integer,
    is accepted although it holds neither key. *)
Lemma non_dict_result_accepted :
  _validate_graph_output (PyInt 1) = true /\
  has_key (PyInt 1) "results" = false /\
  has_key (PyInt 1) "messages" = false.
Proof. repeat split. Qed.

(** C7, amended. Output validation accepts a result exactly when it is
    non-null and, if it is a dict, holds at least one of the keys
    ["results"] and ["messages"]; a non-null result that is not a dict is
    accepted. A result that fails the validation makes [execute] raise
    [GraphExecutionError] at once: the attempt that produced it is the last
    compute call, and no delay follows it. *)
Theorem graph_output_validation
    (py_str : value -> string) (config : Config)
    (ainvoke : nat -> AgentState -> outcome value) :
  (forall r,
      _validate_graph_output r = true <->
      is_none r = false /\
      (is_dict r = true -> has_key r "results" = true \/ has_key r "messages" = true)) /\
  (forall input_data a r,
      (a < 3)%nat -> _validate_graph_input input_data = true ->
      reached (fun k => attempt_class _validate_graph_output
                          (ainvoke k (initial_state py_str config input_data k 3))) a ->
      ainvoke a (initial_state py_str config input_data a 3) = Returned r ->
      _validate_graph_output r = false ->
      let run := execute py_str config ainvoke input_data initial_world in
      fst run = Raised (Exn GraphExecutionError
                          "Graph validation failed: Invalid output from graph execution") /\
      calls (snd run) = S a /\ length (delays (snd run)) = a).
Proof.
  split.
  - intros r. destruct r; cbn; try (split; [by intros; split | by intros []]).
    split.
    + intros H. split; [done|]. intros _. by apply orb_true_iff.
    + intros [_ H]. apply orb_true_iff. by apply H.
  - intros input_data a r Ha Hin Hreach Hret Hbad run. subst run.
    rewrite execute_is_retry_loop.
    exact (loop_invalid_output _ _
             (fun attempt k => ainvoke k (initial_state py_str config input_data attempt 3))
             2 true GraphExecutionError
             "Invalid input data for graph execution" "Invalid output from graph execution"
             "Graph execution timeout after 3 attempts"
             "Unexpected error in graph execution"
             (fun m => "Graph validation failed: " +:+ m)
             (fun m => "Graph execution failed after 3 attempts: " +:+ m)
             a r Ha Hin Hreach Hret Hbad).
Qed.

Lemma graph_output_validation_witness :
  let ainvoke := fun (_ : nat) (_ : AgentState) => Returned (PyDict [("input", PyStr "q")]) in
  let run := execute str_of_simple default_config ainvoke (PyStr "q") initial_world in
  fst run = Raised (Exn GraphExecutionError
                      "Graph validation failed: Invalid output from graph execution") /\
  calls (snd run) = 1%nat /\ length (delays (snd run)) = 0%nat.
Proof.
  intros ainvoke.
  apply (proj2 (graph_output_validation str_of_simple default_config ainvoke)
           (PyStr "q") 0%nat (PyDict [("input", PyStr "q")]));
    [lia | reflexivity | intros k Hk; lia | reflexivity | reflexivity].
Defined.

(** ** The graph builders and the traversal *)

Lemma foldl_add_edges {A : Type} (f : StateGraph -> A -> StateGraph) (mk : A -> edge)
    (l : list A) (g : StateGraph) :
  (forall g x, f g x = mkGraph (nodes g) (edges g ++ [mk x])%list) ->
  foldl f g l = mkGraph (nodes g) (edges g ++ map mk l)%list.
Proof.
  intros Hf. revert g. induction l as [|x l IH]; intros g; cbn.
  - rewrite app_nil_r. by destruct g.
  - rewrite IH, Hf. cbn. by rewrite <- app_assoc.
Qed.

Lemma pipeline_edges_chain (pre suf : list string) :
  suf <> [] ->
  (map (fun i => Edge (Stage (nth i (pre ++ suf) "")) (Stage (nth (i + 1) (pre ++ suf) "")))
      (seq (length pre) (length suf - 1))
   ++ [Edge (Stage (List.last (pre ++ suf) "")) END])%list
  = chain pipeline_link suf.
Proof.
  revert pre. induction suf as [|s suf IH]; intros pre Hne; [done|].
  destruct suf as [|t suf].
  - cbn. by rewrite last_last.
  - replace (length (s :: t :: suf) - 1)%nat with (S (length suf)) by (cbn; lia).
    assert (Hs : nth (length pre) (pre ++ s :: t :: suf) "" = s).
    { rewrite app_nth2 by lia. by rewrite Nat.sub_diag. }
    assert (Ht : nth (length pre + 1) (pre ++ s :: t :: suf) "" = t).
    { rewrite app_nth2 by lia.
      by replace (length pre + 1 - length pre)%nat with 1%nat by lia. }
    specialize (IH (pre ++ [s])%list ltac:(done)).
    rewrite <- app_assoc, length_app in IH. cbn [app length] in IH.
    replace (S (length suf) - 1)%nat with (length suf) in IH by lia.
    replace (length pre + 1)%nat with (S (length pre)) in IH by lia.
    cbn [seq map app chain]. rewrite Hs, Ht. unfold pipeline_link at 1. f_equal.
    exact IH.
Qed.

Lemma state_graph_edges_chain (all : list string) (pre suf : list string) :
  all = (pre ++ suf)%list ->
  map (fun '(i, stage) =>
         if (i <? length all - 1)%nat then
           CondEdge (Stage stage) _get_next_stage
             [("continue",
               if (i + 1 <? length all)%nat then Stage (nth (i + 1) all "") else END);
              ("end", END)]
         else Edge (Stage stage) END)
      (combine (seq (length pre) (length suf)) suf)
  = chain state_graph_link suf.
Proof.
  revert pre. induction suf as [|s suf IH]; intros pre Hall; [done|].
  specialize (IH (pre ++ [s])%list).
  rewrite <- app_assoc in IH. specialize (IH Hall).
  rewrite length_app in IH. cbn [length] in IH.
  replace (length pre + 1)%nat with (S (length pre)) in IH by lia.
  cbn [length seq combine map]. rewrite IH. clear IH.
  assert (Hlen : length all = (length pre + S (length suf))%nat).
  { subst all. rewrite length_app. done. }
  destruct suf as [|t suf].
  - cbn [chain].
    replace (length pre <? length all - 1)%nat with false
      by (symmetry; apply Nat.ltb_ge; cbn in Hlen; lia).
    done.
  - cbn [chain]. cbn [length] in Hlen.
    replace (length pre <? length all - 1)%nat with true
      by (symmetry; apply Nat.ltb_lt; lia).
    replace (length pre + 1 <? length all)%nat with true
      by (symmetry; apply Nat.ltb_lt; lia).
    subst all. rewrite app_nth2 by lia.
    replace (length pre + 1 - length pre)%nat with 1%nat by lia.
    done.
Qed.

Lemma add_pipeline_edges_spec (table : gmap string node_fn) (stages : list string) :
  _add_pipeline_edges (mkConfig stages) (mkGraph table [])
  = mkGraph table (chain pipeline_link stages).
Proof.
  unfold _add_pipeline_edges. cbn [agent_stages].
  rewrite (foldl_add_edges _
             (fun i => Edge (Stage (nth i stages "")) (Stage (nth (i + 1) stages ""))))
    by done.
  cbn [nodes edges app].
  destruct stages as [|s stages]; [done|].
  cbn [length Nat.eqb negb]. unfold add_edge. cbn [nodes edges].
  f_equal. apply (pipeline_edges_chain [] (s :: stages)). done.
Qed.

Lemma add_state_graph_edges_spec (table : gmap string node_fn) (s : string)
    (stages : list string) :
  _add_state_graph_edges (mkConfig (s :: stages)) (mkGraph table [])
  = mkGraph table (Edge START (Stage s) :: chain state_graph_link (s :: stages)).
Proof.
  unfold _add_state_graph_edges. cbn [agent_stages].
  cbn [length Nat.eqb].
  change (S (length stages)) with (length (s :: stages)).
  rewrite (foldl_add_edges _
    (fun '(i, stage) =>
       if (i <? length (s :: stages) - 1)%nat then
         CondEdge (Stage stage) _get_next_stage
           [("continue",
             if (i + 1 <? length (s :: stages))%nat
             then Stage (nth (i + 1) (s :: stages) "") else END);
            ("end", END)]
       else Edge (Stage stage) END)).
  2:{ intros g [i stage]. by destruct (i <? length (s :: stages) - 1)%nat. }
  unfold add_edge. cbn [nodes edges app nth]. f_equal. f_equal.
  apply (state_graph_edges_chain (s :: stages) [] (s :: stages)). done.
Qed.

Section Chains.

Variable link : string -> string -> edge.
Hypothesis link_src : forall s t, edge_src (link s t) = Stage s.

Lemma chain_edge_src s suffix : edge_src (chain_edge link s suffix) = Stage s.
Proof. destruct suffix; [done | apply link_src]. Qed.

Lemma chain_cons s rest : chain link (s :: rest) = chain_edge link s rest :: chain link rest.
Proof. by destruct rest. Qed.

Lemma out_edges_absent s stages :
  s ∉ stages ->
  List.filter (fun e => node_id_eqb (edge_src e) (Stage s)) (chain link stages) = [].
Proof.
  induction stages as [|x stages IH]; intros Hs; [done|].
  rewrite chain_cons. cbn [List.filter]. rewrite chain_edge_src. cbn [node_id_eqb].
  apply not_elem_of_cons in Hs as [Hne Hs].
  destruct (String.eqb_spec x s) as [->|_]; [done|]. by apply IH.
Qed.

Lemma out_edges_start stages :
  List.filter (fun e => node_id_eqb (edge_src e) START) (chain link stages) = [].
Proof.
  induction stages as [|x stages IH]; [done|].
  rewrite chain_cons. cbn [List.filter]. by rewrite chain_edge_src.
Qed.

Lemma out_edges_chain pre s suf :
  NoDup (pre ++ s :: suf) ->
  List.filter (fun e => node_id_eqb (edge_src e) (Stage s)) (chain link (pre ++ s :: suf))
  = [chain_edge link s suf].
Proof.
  induction pre as [|p pre IH]; intros Hnd.
  - cbn [app] in *. rewrite chain_cons. cbn [List.filter].
    rewrite chain_edge_src. cbn [node_id_eqb]. rewrite String.eqb_refl.
    apply NoDup_cons in Hnd as [Hs _]. by rewrite out_edges_absent.
  - cbn [app] in *. rewrite chain_cons. cbn [List.filter].
    rewrite chain_edge_src. cbn [node_id_eqb].
    apply NoDup_cons in Hnd as [Hp Hnd].
    destruct (String.eqb_spec p s) as [->|_].
    + exfalso. apply Hp. apply elem_of_app. right. by left.
    + by apply IH.
Qed.

End Chains.

Section ChainWalk.

Variable merge : AgentState -> AgentState -> AgentState.
Variable g : StateGraph.
Variable full : list string.
Hypothesis next_in_chain :
  forall pre s suf st, full = (pre ++ s :: suf)%list ->
    next_node g st (Stage s) = Returned (following suf).

Lemma walk_suffix suf :
  forall pre, full = (pre ++ suf)%list ->
  forall limit, (length suf < limit)%nat ->
  forall visited st w,
    walk merge g limit (following suf) visited st w
    = run_stages merge (nodes g) suf visited st w.
Proof.
  induction suf as [|s suf IH]; intros pre Hfull limit Hlimit visited st w.
  - destruct limit; [cbn in Hlimit; lia | done].
  - destruct limit as [|limit]; [lia|]. cbn [length] in Hlimit.
    cbn [following walk run_stages].
    destruct (nodes g !! s) as [f|]; [|done].
    unfold mbind, M_bind. destruct (f st w) as [[returned|e] w']; [|done].
    unfold lift_outcome. rewrite (next_in_chain pre s suf _ Hfull).
    apply (IH (pre ++ [s])%list); [by rewrite <- app_assoc | lia].
Qed.

End ChainWalk.

Lemma next_node_pipeline table stages pre s suf st :
  NoDup stages -> stages = (pre ++ s :: suf)%list ->
  next_node (mkGraph table (chain pipeline_link stages)) st (Stage s)
  = Returned (following suf).
Proof.
  intros Hnd ->. unfold next_node, out_edges. cbn [edges].
  rewrite (out_edges_chain pipeline_link) by done.
  by destruct suf.
Qed.

Lemma next_node_state_graph table entry stages pre s suf st :
  NoDup stages -> stages = (pre ++ s :: suf)%list ->
  next_node (mkGraph table (Edge START entry :: chain state_graph_link stages)) st (Stage s)
  = Returned (following suf).
Proof.
  intros Hnd ->. unfold next_node, out_edges. cbn [edges List.filter edge_src node_id_eqb].
  rewrite (out_edges_chain state_graph_link) by done.
  by destruct suf.
Qed.

Lemma next_node_entry table entry stages st :
  next_node (mkGraph table (Edge START entry :: chain state_graph_link stages)) st START
  = Returned entry.
Proof.
  unfold next_node, out_edges. cbn [edges List.filter edge_src node_id_eqb].
  by rewrite (out_edges_start state_graph_link).
Qed.

Lemma run_stages_visits merge table stages visited st w visited' st' w' :
  run_stages merge table stages visited st w = (Returned (visited', st'), w') ->
  visited' = (visited ++ stages)%list.
Proof.
  revert visited st w. induction stages as [|s stages IH]; intros visited st w;
    cbn [run_stages].
  - intros [= <- <- <-]. by rewrite app_nil_r.
  - destruct (table !! s) as [f|]; [|done].
    unfold mbind, M_bind. destruct (f st w) as [[returned|e] w'']; [|done].
    intros H. apply IH in H. by rewrite <- app_assoc in H.
Qed.

Lemma run_stages_completes merge table stages visited st w :
  (forall s, s ∈ stages -> exists f, table !! s = Some f /\ never_raises f) ->
  exists st' w',
    run_stages merge table stages visited st w = (Returned ((visited ++ stages)%list, st'), w').
Proof.
  revert visited st w. induction stages as [|s stages IH]; intros visited st w Hall;
    cbn [run_stages].
  - rewrite app_nil_r. by eexists _, _.
  - destruct (Hall s) as (f & Hf1 & Hf); [by left|].
    destruct (table !! s) as [f'|]; [|done].
    injection Hf1 as ->.
    destruct (Hf st w) as (st1 & w1 & Hrun).
    unfold mbind, M_bind. rewrite Hrun.
    destruct (IH (visited ++ [s])%list (merge st st1) w1) as (st' & w' & ->).
    { intros s' Hs'. apply Hall. by right. }
    rewrite <- app_assoc. by eexists _, _.
Qed.


Lemma next_node_by_targets g1 g2 st n :
  edge_targets g1 st n = edge_targets g2 st n ->
  next_node g1 st n = next_node g2 st n.
Proof.
  unfold edge_targets, next_node.
  destruct (out_edges g1 n) as [|e1 [|e1' l1]], (out_edges g2 n) as [|e2 [|e2' l2]];
    cbn; try done.
  by intros [= ->].
Qed.

Lemma chain_edge_target_state_graph st s suffix :
  edge_target st (chain_edge state_graph_link s suffix) = Some (following suffix).
Proof. by destruct suffix. Qed.

Lemma chain_edge_target_pipeline st s suffix :
  edge_target st (chain_edge pipeline_link s suffix) = Some (following suffix).
Proof. by destruct suffix. Qed.

Lemma chain_targets_agree st n stages :
  map (edge_target st)
      (List.filter (fun e => node_id_eqb (edge_src e) n) (chain state_graph_link stages))
  = map (edge_target st)
      (List.filter (fun e => node_id_eqb (edge_src e) n) (chain pipeline_link stages)).
Proof.
  induction stages as [|s stages IH]; [done|].
  rewrite !chain_cons. cbn [List.filter].
  rewrite !chain_edge_src by done.
  destruct (node_id_eqb (Stage s) n); [|done].
  cbn [map]. rewrite chain_edge_target_state_graph, chain_edge_target_pipeline.
  by f_equal.
Qed.

Lemma chain_targets_not_start link st n stages m :
  (forall s suffix, edge_target st (chain_edge link s suffix) = Some (following suffix)) ->
  In (Some m)
     (map (edge_target st)
        (List.filter (fun e => node_id_eqb (edge_src e) n) (chain link stages))) ->
  m <> START.
Proof.
  intros Htarget. induction stages as [|s stages IH]; [done|].
  rewrite chain_cons. cbn [List.filter].
  destruct (node_id_eqb _ n); [|done].
  cbn [map In]. rewrite Htarget. intros [[= <-]|Hin]; [|by apply IH].
  by destruct stages.
Qed.

Lemma next_node_pipeline_not_start table stages st n m :
  next_node (mkGraph table (chain pipeline_link stages)) st n = Returned m -> m <> START.
Proof.
  unfold next_node, out_edges. cbn [edges].
  destruct (List.filter _ _) as [|e [|e' l]] eqn:Hf; try done.
  destruct (edge_target st e) as [m'|] eqn:He; [|done].
  intros [= <-].
  apply (chain_targets_not_start pipeline_link st n stages);
    [apply chain_edge_target_pipeline|].
  rewrite Hf. cbn. left. done.
Qed.

Lemma walk_agrees merge g1 g2 :
  nodes g1 = nodes g2 ->
  (forall st n, n <> START -> next_node g1 st n = next_node g2 st n) ->
  (forall st n m, next_node g2 st n = Returned m -> m <> START) ->
  forall limit n visited st w, n <> START ->
    walk merge g1 limit n visited st w = walk merge g2 limit n visited st w.
Proof.
  intros Hnodes Hnext Hstart.
  induction limit as [|limit IH]; intros n visited st w Hn; [done|].
  destruct n as [| |s]; [done | done |].
  cbn [walk]. rewrite Hnodes.
  destruct (nodes g2 !! s) as [f|]; [|done].
  unfold mbind, M_bind. destruct (f st w) as [[returned|e] w']; [|done].
  unfold lift_outcome. rewrite Hnext by done.
  destruct (next_node g2 (merge st returned) (Stage s)) as [m|e] eqn:Hm; [|done].
  apply IH. by eapply Hstart.
Qed.

Lemma state_graph_walk_is_pipeline_walk merge table entry rest limit st w :
  invoke merge (_add_state_graph_edges (mkConfig (entry :: rest)) (mkGraph table []))
    (S limit) st w
  = walk merge (_add_pipeline_edges (mkConfig (entry :: rest)) (mkGraph table []))
      limit (Stage entry) [] st w.
Proof.
  rewrite add_state_graph_edges_spec, add_pipeline_edges_spec.
  unfold invoke. cbn [walk]. unfold mbind, M_bind, lift_outcome.
  rewrite next_node_entry.
  apply walk_agrees; [done| | |done].
  - intros st0 n Hn. apply next_node_by_targets.
    unfold edge_targets, out_edges. cbn [edges List.filter edge_src].
    destruct n; [done| |]; cbn [node_id_eqb]; apply chain_targets_agree.
  - intros st0 n m. apply next_node_pipeline_not_start.
Qed.

Lemma invoke_state_graph_runs_stages merge table entry rest limit st w :
  NoDup (entry :: rest) -> (length (entry :: rest) < limit)%nat ->
  invoke merge (_add_state_graph_edges (mkConfig (entry :: rest)) (mkGraph table []))
    (S limit) st w
  = run_stages merge table (entry :: rest) [] st w.
Proof.
  intros Hnd Hlimit. rewrite add_state_graph_edges_spec.
  unfold invoke. cbn [walk]. unfold mbind, M_bind, lift_outcome.
  rewrite next_node_entry.
  apply (walk_suffix merge
           (mkGraph table (Edge START (Stage entry) :: chain state_graph_link (entry :: rest)))
           (entry :: rest)) with (suf := entry :: rest) (pre := []); [|done|done].
  intros pre s suf st0 Hfull. by eapply next_node_state_graph.
Qed.

Lemma walk_pipeline_runs_stages merge table entry rest limit st w :
  NoDup (entry :: rest) -> (length (entry :: rest) < limit)%nat ->
  walk merge (_add_pipeline_edges (mkConfig (entry :: rest)) (mkGraph table []))
    limit (Stage entry) [] st w
  = run_stages merge table (entry :: rest) [] st w.
Proof.
  intros Hnd Hlimit. rewrite add_pipeline_edges_spec.
  apply (walk_suffix merge (mkGraph table (chain pipeline_link (entry :: rest)))
           (entry :: rest)) with (suf := entry :: rest) (pre := []); [|done|done].
  intros pre s suf st0 Hfull. by eapply next_node_pipeline.
Qed.

(** C6. For every non-empty stage list, the state-machine build is the
    edge [START -> stage[0]] followed by a chain with one conditional edge
    per non-terminal stage and the edge from the last stage to [END]; the
    pipeline build is the same chain with plain edges; and with the default
    routing function the traversal of the state-machine build from [START]
    is the traversal of the pipeline build from its entry stage. When the
    stage names are distinct, as the graph requires, that traversal runs
    the stages one after the other in the declared order: what it returns
    lists exactly the declared stages, none skipped, and it does return
    when every stage has a node function that returns. *)
Theorem state_machine_is_pipeline
    (merge : AgentState -> AgentState -> AgentState)
    (table : gmap string node_fn) (entry : string) (rest : list string) :
  let stages := entry :: rest in
  let g_state := _add_state_graph_edges (mkConfig stages) (mkGraph table []) in
  let g_pipe := _add_pipeline_edges (mkConfig stages) (mkGraph table []) in
  edges g_state = Edge START (Stage entry) :: chain state_graph_link stages /\
  edges g_pipe = chain pipeline_link stages /\
  (forall limit st w,
      invoke merge g_state (S limit) st w
      = walk merge g_pipe limit (Stage entry) [] st w) /\
  (NoDup stages ->
   forall limit st w, (length stages < limit)%nat ->
     invoke merge g_state (S limit) st w = run_stages merge table stages [] st w /\
     walk merge g_pipe limit (Stage entry) [] st w = run_stages merge table stages [] st w /\
     (forall visited st' w',
         run_stages merge table stages [] st w = (Returned (visited, st'), w') ->
         visited = stages) /\
     ((forall s, s ∈ stages -> exists f, table !! s = Some f /\ never_raises f) ->
      exists st' w', run_stages merge table stages [] st w = (Returned (stages, st'), w'))).
Proof.
  intros stages g_state g_pipe. subst g_state g_pipe stages.
  split; [by rewrite add_state_graph_edges_spec|].
  split; [by rewrite add_pipeline_edges_spec|].
  split; [intros; apply state_graph_walk_is_pipeline_walk|].
  intros Hnd limit st w Hlimit.
  split; [by apply invoke_state_graph_runs_stages|].
  split; [by apply walk_pipeline_runs_stages|].
  split.
  - intros visited st' w' H. by apply run_stages_visits in H.
  - intros Hall. by apply (run_stages_completes merge table (entry :: rest) []).
Qed.

Lemma state_machine_is_pipeline_witness :
  let stages := ["a"; "b"; "c"] in
  invoke thread_forward (_add_state_graph_edges (mkConfig stages) (mkGraph abc_table []))
    5 abc_start initial_world
  = run_stages thread_forward abc_table stages [] abc_start initial_world /\
  walk thread_forward (_add_pipeline_edges (mkConfig stages) (mkGraph abc_table []))
    4 (Stage "a") [] abc_start initial_world
  = run_stages thread_forward abc_table stages [] abc_start initial_world.
Proof.
  assert (Hnd : NoDup ["a"; "b"; "c"]).
  { apply (bool_decide_unpack _). vm_compute. exact I. }
  assert (Hlimit : (length ["a"; "b"; "c"] < 4)%nat) by (cbn; lia).
  destruct (proj2 (proj2 (proj2
              (state_machine_is_pipeline thread_forward abc_table "a" ["b"; "c"])))
              Hnd 4%nat abc_start initial_world Hlimit) as (H1 & H2 & _).
  split; [exact H1 | exact H2].
Defined.

(** ** Stage node functions *)









(** A traversal in which the first stage fails: the error is recorded, the
    two stages after it run, and the second one, finding no earlier
    result, works on the input. *)
Example failed_stage_does_not_halt :
  let run :=
    returned_value
      (fst (invoke thread_forward (_build_graph str_of_simple failing_first default_config) 5
              (initial_state str_of_simple default_config (PyStr "x") 0 3) initial_world)) in
  fst <$> run = Some ["llm_1"; "llm_2"; "llm_3"] /\
  (fun r => error (snd r)) <$> run
    = Some (Some "Llm_1 tool node error: Failed to execute llm_1 after 3 attempts: down") /\
  (fun r => results (snd r) !! "llm_1") <$> run = Some None /\
  (fun r => results (snd r) !! "llm_2") <$> run = Some (Some (PyStr "x|llm_2")) /\
  (fun r => results (snd r) !! "llm_3") <$> run = Some (Some (PyStr "x|llm_2|llm_3")).
Proof. vm_compute. repeat split. Qed.

(** The end-to-end example of the spec: stages [a], [b], [c], each
    appending its name; both builds give the same results in order. *)
Example abc_end_to_end :
  let by_state_graph :=
    returned_value
      (fst (invoke thread_forward
              (_add_state_graph_edges (mkConfig ["a"; "b"; "c"]) (mkGraph abc_table []))
              5 abc_start initial_world)) in
  let by_pipeline :=
    returned_value
      (fst (walk thread_forward
              (_add_pipeline_edges (mkConfig ["a"; "b"; "c"]) (mkGraph abc_table []))
              4 (Stage "a") [] abc_start initial_world)) in
  by_state_graph = by_pipeline /\
  fst <$> by_state_graph = Some ["a"; "b"; "c"] /\
  (fun r => results (snd r) !! "a") <$> by_state_graph = Some (Some (PyStr "xa")) /\
  (fun r => results (snd r) !! "b") <$> by_state_graph = Some (Some (PyStr "xab")) /\
  (fun r => results (snd r) !! "c") <$> by_state_graph = Some (Some (PyStr "xabc")).
Proof. vm_compute. repeat split. Qed.

(** ** The use-case executor *)

Lemma dict_mem_get d k : dict_mem d k = true <-> exists v, dict_get d k = Some v.
Proof.
  unfold dict_mem. destruct (dict_get d k) as [v|].
  - split; [by eexists | done].
  - split; [done | by intros [v Hv]].
Qed.

Lemma validate_output_dict_passes_iff py_str actual_output expected :
  passed (_validate_output py_str actual_output (PyDict expected)) = true <->
  forall key expected_value,
    In (key, expected_value) expected ->
    present_with_equal_value actual_output key expected_value.
Proof.
  unfold _validate_output, present_with_equal_value.
  induction expected as [|[key expected_value] expected IH].
  - cbn. split; [by intros _ ? ? [] | done].
  - split.
    + intros Hpass k v [[= <- <-]|Hin].
      * revert Hpass. cbn.
        destruct actual_output as [| | | |s|l|d]; cbn; try done.
        -- by destruct (is_substring key s).
        -- by destruct (existsb _ l).
        -- unfold dict_mem. destruct (dict_get d key) as [v'|]; cbn; [|done].
           destruct (py_eq v' expected_value) eqn:Heq; cbn; [|done].
           intros _. by eexists.
      * apply IH; [|done]. revert Hpass. cbn.
        destruct actual_output as [| | | |s|l|d]; cbn; try done.
        -- by destruct (is_substring key s).
        -- by destruct (existsb _ l).
        -- unfold dict_mem. destruct (dict_get d key) as [v'|]; cbn; [|done].
           by destruct (py_eq v' expected_value).
    + intros Hall.
      destruct (Hall key expected_value) as (v' & Hget & Heq); [by left|].
      destruct actual_output as [| | | |s|l|d]; try done.
      cbn in Hget. destruct (dict_get d key) as [v''|] eqn:Hd; [|done].
      injection Hget as ->.
      cbn. unfold dict_mem. rewrite Hd. cbn. rewrite Heq. cbn.
      apply IH. intros k v Hin. apply Hall. by right.
Qed.

(** C8, as stated, fails: a use case that expects [{"status": "x"}] and also
    carries an expected behaviour which the output [{"status": "y"}] does
    not meet ends with the status ["behavior_failed"], the later check
    overwriting ["validation_failed"] (the agent is loaded by the call). *)
Lemma behavior_failure_overrides_validation_failure :
  exists r,
    execute_use_case str_of_simple (Returned status_y_agent) 0%Q "t" None
      both_checks_use_case
      = Returned r /\
    status r = "behavior_failed" /\
    status r <> "validation_failed".
Proof. eexists. split; [reflexivity|]. split; [reflexivity | discriminate]. Qed.

(** C8, amended. For a use case whose expected output is the dict
    [{"status": x}] and an agent output that maps ["status"] to a value [y]
    different from [x], the validation recorded in the execution result
    fails with a message naming the key ['status'], and the status of the
    result is ["validation_failed"] when the use case has no expected
    behaviour or the output meets it. Dict validation passes exactly when
    every expected key is present in the actual output with an equal
    value. The agent that answers is the one [load_agent] leaves in
    [self.agent], loaded before or by this call. *)
Theorem status_mismatch_fails_validation
    (py_str : value -> string) (get_agent : outcome agent)
    (self_agent : option agent) (agent_execute : value -> outcome value)
    (elapsed : Q) (end_time_iso : string) :
  (forall use_case x actual y,
      load_agent get_agent self_agent = Returned agent_execute ->
      dict_get use_case "expected_output" = Some (PyDict [("status", x)]) ->
      agent_execute (default (PyDict []) (dict_get use_case "input"))
        = Returned (PyDict actual) ->
      dict_get actual "status" = Some y ->
      py_eq y x = false ->
      exists r,
        execute_use_case py_str get_agent elapsed end_time_iso self_agent
          (PyDict use_case)
          = Returned r /\
        validation r =
          Some (CheckResult false
                  ("Value mismatch for key 'status': expected " +:+ py_str x
                   +:+ ", got " +:+ py_str y)) /\
        (let expected_behavior := default PyNone (dict_get use_case "expected_behavior") in
         is_none expected_behavior = true \/
         passed (_check_behavior py_str (PyDict actual) expected_behavior) = true ->
         status r = "validation_failed")) /\
  (forall actual_output expected,
      passed (_validate_output py_str actual_output (PyDict expected)) = true <->
      forall key expected_value,
        In (key, expected_value) expected ->
        present_with_equal_value actual_output key expected_value).
Proof.
  split; [|apply validate_output_dict_passes_iff].
  intros use_case x actual y Hload Hexp Hrun Hy Hne.
  unfold execute_use_case. rewrite Hload. cbn [py_get mbind outcome_bind].
  rewrite Hrun, Hexp. cbn [default from_option id is_none negb mbind outcome_bind].
  assert (Hval : _validate_output py_str (PyDict actual) (PyDict [("status", x)])
                 = CheckResult false
                     ("Value mismatch for key 'status': expected " +:+ py_str x
                      +:+ ", got " +:+ py_str y)).
  { unfold _validate_output. cbn. unfold dict_mem. rewrite Hy. cbn. by rewrite Hne. }
  rewrite Hval. cbn [passed negb status validation].
  destruct (is_none (default PyNone (dict_get use_case "expected_behavior"))) eqn:Hnone;
    cbn [negb].
  - eexists. split; [reflexivity|]. split; [done|]. done.
  - eexists. split; [reflexivity|]. split; [done|].
    cbn [status]. intros [Hfalse|Hpass]; [done|]. by rewrite Hpass.
Qed.

Lemma status_mismatch_fails_validation_witness :
  exists r,
    execute_use_case str_of_simple (Returned status_y_agent) 0%Q "t" None
      (PyDict [("name", PyStr "status check"); ("input", PyStr "ping");
               ("expected_output", PyDict [("status", PyStr "x")])])
      = Returned r /\
    validation r =
      Some (CheckResult false "Value mismatch for key 'status': expected x, got y") /\
    status r = "validation_failed".
Proof.
  destruct (proj1 (status_mismatch_fails_validation str_of_simple
                     (Returned status_y_agent) None status_y_agent 0%Q "t")
              [("name", PyStr "status check"); ("input", PyStr "ping");
               ("expected_output", PyDict [("status", PyStr "x")])]
              (PyStr "x") [("status", PyStr "y")] (PyStr "y")
              eq_refl eq_refl eq_refl eq_refl eq_refl) as (r & Hr & Hv & Hs).
  exists r. split; [exact Hr|]. split; [exact Hv|]. apply Hs. left. reflexivity.
Defined.


(** ** The report *)

Lemma nonzero_count (n : nat) : Qeq_bool (inject_Z (Z.of_nat (S n))) 0 = false.
Proof.
  destruct (Qeq_bool (inject_Z (Z.of_nat (S n))) 0) eqn:H; [|done].
  apply Qeq_bool_iff in H. unfold Qeq in H. cbn in H. lia.
Qed.

(** C10. For an empty result list the report is
    [{"message": "No results to report"}]; the report never raises, so no
    division by zero occurs; and whenever a summary is produced its
    [total_cases], the divisor of both divisions, is at least 1. *)
Theorem report_never_divides_by_zero
    (self_results : list execution_result) (results : option (list execution_result))
    (now_iso : string) :
  (default self_results results = [] ->
   generate_report self_results results now_iso
   = Returned (ReportMessage "No results to report")) /\
  (forall e, generate_report self_results results now_iso <> Raised e) /\
  (forall summary rs generated_at,
      generate_report self_results results now_iso
      = Returned (ReportSummary summary rs generated_at) ->
      (1 <= total_cases summary)%nat /\
      total_cases summary = length (default self_results results) /\
      py_truediv (inject_Z (Z.of_nat (successful summary)))
                 (inject_Z (Z.of_nat (total_cases summary)))
      = Returned (inject_Z (Z.of_nat (successful summary))
                  / inject_Z (Z.of_nat (total_cases summary)))%Q).
Proof.
  unfold generate_report.
  destruct (default self_results results) as [|r rs'] eqn:Hres.
  - split; [done|]. split; [done|]. done.
  - cbn [length Nat.eqb]. unfold py_truediv at 1 2. rewrite nonzero_count.
    cbn [mbind outcome_bind].
    split; [done|]. split; [done|].
    intros summary rs generated_at [= <- <- <-]. cbn [total_cases successful].
    split; [lia|]. split; [done|].
    unfold py_truediv. by rewrite nonzero_count.
Qed.

Lemma report_never_divides_by_zero_witness :
  generate_report [] (Some []) "2025-01-01T00:00:00"
  = Returned (ReportMessage "No results to report").
Proof.
  apply (proj1 (report_never_divides_by_zero [] (Some []) "2025-01-01T00:00:00")).
  reflexivity.
Defined.

(* ================================================================== *)
(** * Part III. Further properties of the code                         *)
(* ================================================================== *)

(** ** Thread ids: which calls share a checkpoint thread *)

Lemma str_length_append (a b : string) :
  String.length (a +:+ b) = (String.length a + String.length b)%nat.
Proof.
  induction a as [|x a IH]; [done|].
  change (S (String.length (a +:+ b)) = S (String.length a + String.length b)).
  by rewrite IH.
Qed.

Lemma append_cancel_tail (a b c : string) : a +:+ c = b +:+ c -> a = b.
Proof.
  intros H.
  assert (Hlen : String.length a = String.length b).
  { apply (f_equal String.length) in H. rewrite !str_length_append in H. lia. }
  revert b H Hlen. induction a as [|x a IH]; intros [|y b] H Hlen; try done.
  change (String x (a +:+ c) = String y (b +:+ c)) in H.
  injection H as -> H. f_equal. apply IH; [done|]. by injection Hlen.
Qed.

Lemma append_cancel_head (a b c : string) : a +:+ b = a +:+ c -> b = c.
Proof.
  induction a as [|x a IH]; [done|].
  change (String x (a +:+ b) = String x (a +:+ c) -> b = c).
  intros [= H]. by apply IH.
Qed.

Lemma nonempty_truthy (s : string) : s <> "" -> str_opt_truthy (Some s) = true.
Proof. intros H. cbn. by destruct (String.eqb_spec s ""). Qed.

(** X1. With the same session argument, two different users never get the
    same thread configuration. *)
Theorem thread_id_separates_users (user_id user_id' : string)
    (session_id : option string) :
  user_id <> user_id' ->
  get_thread_config user_id session_id <> get_thread_config user_id' session_id.
Proof.
  intros Hne. unfold get_thread_config.
  destruct (str_opt_truthy session_id); intros [= H]; apply Hne.
  - apply append_cancel_tail in H. by apply append_cancel_head in H.
  - by apply append_cancel_head in H.
Qed.

Lemma thread_id_separates_users_witness :
  get_thread_config "alice" (Some "s1") <> get_thread_config "bob" (Some "s1").
Proof.
  apply (thread_id_separates_users "alice" "bob" (Some "s1")). discriminate.
Defined.

(** X2. For one user, two different non-empty session ids give different
    thread configurations, and a non-empty session id never gives the
    configuration of the call without a session. *)
Theorem thread_id_separates_sessions (user_id session_id session_id' : string) :
  session_id <> "" -> session_id' <> "" ->
  (session_id <> session_id' ->
   get_thread_config user_id (Some session_id)
   <> get_thread_config user_id (Some session_id')) /\
  get_thread_config user_id (Some session_id) <> get_thread_config user_id None.
Proof.
  intros Hs Hs'. unfold get_thread_config.
  rewrite !nonempty_truthy by done. cbn [str_opt_truthy default]. split.
  - intros Hne [= H]. apply Hne.
    apply append_cancel_head in H. by apply append_cancel_head in H.
  - intros [= H]. apply (f_equal String.length) in H.
    rewrite !str_length_append in H. cbn in H. lia.
Qed.

Lemma thread_id_separates_sessions_witness :
  get_thread_config "alice" (Some "s1") <> get_thread_config "alice" (Some "s2").
Proof.
  apply (proj1 (thread_id_separates_sessions "alice" "s1" "s2"
                  ltac:(discriminate) ltac:(discriminate))).
  discriminate.
Defined.

(** X3. The thread id is a plain concatenation: a user whose id ends in
    "_session_<s>" and who passes no session shares the thread of the user
    without that ending who passes the session <s>. *)
Theorem thread_id_collides_on_separator (user_id session_id : string) :
  session_id <> "" ->
  get_thread_config (user_id +:+ "_session_" +:+ session_id) None
  = get_thread_config user_id (Some session_id).
Proof.
  intros Hne. unfold get_thread_config, str_opt_truthy.
  destruct (String.eqb_spec session_id "") as [->|_]; [done|].
  cbn [negb default]. by rewrite append_assoc.
Qed.

Lemma thread_id_collides_on_separator_witness :
  get_thread_config "alice_session_s1" None = get_thread_config "alice" (Some "s1").
Proof.
  apply (thread_id_collides_on_separator "alice" "s1"). discriminate.
Defined.

(** X4. For one user and one session argument, two different versions give
    different versioned thread configurations. *)
Theorem versioned_thread_id_separates_versions
    (user_id version version' : string) (session_id : option string) :
  version <> version' ->
  get_versioned_thread_config user_id (Some version) session_id
  <> get_versioned_thread_config user_id (Some version') session_id.
Proof.
  intros Hne. unfold get_versioned_thread_config. cbn [default].
  intros [= H]. apply Hne.
  apply append_cancel_head in H. by apply append_cancel_head in H.
Qed.

Lemma versioned_thread_id_separates_versions_witness :
  get_versioned_thread_config "alice" (Some "1") None
  <> get_versioned_thread_config "alice" (Some "2") None.
Proof.
  apply (versioned_thread_id_separates_versions "alice" "1" "2" None). discriminate.
Defined.

(** ** Graph-level input validation: the accepted sizes *)

Lemma lstrip_empty (s : string) : lstrip s = "" <-> all_space s = true.
Proof.
  induction s as [|c s IH]; [done|]. cbn.
  destruct (is_py_space c); cbn; [done|]. split; done.
Qed.

Lemma lstrip_head (s : string) (c : ascii) (t : string) :
  lstrip s = String c t -> is_py_space c = false.
Proof.
  induction s as [|x s IH]; [done|]. cbn.
  destruct (is_py_space x) eqn:Hx; [done|]. by intros [= <- <-].
Qed.

Lemma rstrip_visible_head (c : ascii) (t : string) :
  is_py_space c = false -> rstrip (String c t) <> "".
Proof. intros Hc. cbn. rewrite Hc. by destruct (rstrip t). Qed.

Lemma strip_empty (s : string) : strip s = "" <-> all_space s = true.
Proof.
  unfold strip. rewrite <- lstrip_empty.
  destruct (lstrip s) as [|c t] eqn:Hl; [done|].
  split; [|done]. intros H. exfalso.
  by apply (rstrip_visible_head c t (lstrip_head _ _ _ Hl)).
Qed.

(** X5. The graph accepts a string exactly when it has a character that is
    not whitespace and at most 50000 characters, a list exactly when it has
    between 1 and 1000 items, and a dict exactly when it is not empty (a dict
    has no upper bound). *)
Theorem graph_input_validation_bounds :
  (forall s, _validate_graph_input (PyStr s)
             = negb (all_space s) && (Z.of_nat (String.length s) <=? 50000)) /\
  (forall l, _validate_graph_input (PyList l)
             = negb (Nat.eqb (length l) 0) && (Z.of_nat (length l) <=? 1000)) /\
  (forall d, _validate_graph_input (PyDict d) = negb (Nat.eqb (length d) 0)).
Proof.
  split; [|split].
  - intros s. cbn. f_equal.
    destruct (all_space s) eqn:Ha.
    + apply strip_empty in Ha. by rewrite Ha.
    + destruct (strip s) eqn:Hs; [|done].
      apply strip_empty in Hs. congruence.
  - intros l. cbn. f_equal. by destruct l.
  - done.
Qed.

(** ** The retry loops: exhaustion, first success, sleeps *)

Section RetryLoopMore.

Variable valid_in : bool.
Variable valid_out : value -> bool.
Variable o : nat -> nat -> outcome value.
Variable retry_delay : Z.
Variable timeout_clause : bool.
Variable terminal : exn_class.
Variables msg_in msg_out msg_timeout msg_unexpected : string.
Variables msg_validation msg_failed : string -> string.

Let loop := retry_loop valid_in valid_out o retry_delay timeout_clause terminal
              msg_in msg_out msg_timeout msg_unexpected msg_validation msg_failed.

Ltac unfold_loop :=
  unfold loop, retry_loop, for_each, try_except, await_compute, sleep, raise,
    initial_world, delays, total_delay, mbind, mret, M_bind, M_ret; cbn.

Ltac split_attempt k :=
  let r := fresh "r" in let e := fresh "e" in
  let Ho := fresh "Ho" in let Hv := fresh "Hv" in
  let Ht := fresh "Ht" in
  destruct (o k k) as [r|e] eqn:Ho; cbn in *;
  [ destruct (valid_out r) eqn:Hv; cbn in *
  | destruct (is_validation_exn e) eqn:Hv; cbn in *;
    [ | destruct (is_timeout_exn e) eqn:Ht; destruct timeout_clause; cbn in * ] ].

Ltac all_attempts :=
  split_attempt 0%nat; try split_attempt 1%nat; try split_attempt 2%nat.

Lemma loop_success_at (a : nat) (r : value) :
  (a < 3)%nat -> valid_in = true ->
  reached (fun k => attempt_class valid_out (o k k)) a ->
  o a a = Returned r -> valid_out r = true ->
  fst (loop initial_world) = Returned r /\
  calls (snd (loop initial_world)) = S a /\
  length (delays (snd (loop initial_world))) = a.
Proof.
  intros Ha Hin Hreach Hret Hok.
  assert (H0 := Hreach 0%nat). assert (H1 := Hreach 1%nat).
  unfold attempt_class in *. unfold_loop. rewrite Hin. cbn.
  destruct a as [|[|[|a]]]; [| | |lia];
    all_attempts;
    try discriminate;
    try (discriminate H0; lia); try (discriminate H1; lia);
    try (injection Hret as ->); try congruence;
    cbn; eauto.
Qed.

Lemma loop_sleeps_between_attempts :
  length (delays (snd (loop initial_world))) = Nat.pred (calls (snd (loop initial_world))) /\
  (forall d, last (trace (snd (loop initial_world))) <> Some (Sleep d)).
Proof.
  unfold_loop. destruct valid_in; cbn; [|done].
  all_attempts; cbn; done.
Qed.

Lemma loop_total_delay :
  0 <= retry_delay ->
  0 <= total_delay (snd (loop initial_world)) <= retry_delay * 3.
Proof.
  intros Hd. unfold_loop. destruct valid_in; cbn; [|lia].
  all_attempts; cbn; lia.
Qed.

Lemma loop_exhausted_run (e0 e1 e2 : exn) :
  valid_in = true ->
  o 0%nat 0%nat = Raised e0 -> is_validation_exn e0 = false ->
  o 1%nat 1%nat = Raised e1 -> is_validation_exn e1 = false ->
  o 2%nat 2%nat = Raised e2 -> is_validation_exn e2 = false ->
  loop initial_world
  = (Raised (exhausted_exn terminal timeout_clause msg_timeout msg_failed e2),
     World 3 [Invoke 0; Sleep (retry_delay * 1); Invoke 1; Sleep (retry_delay * 2);
              Invoke 2]).
Proof.
  intros Hin H0 Hv0 H1 Hv1 H2 Hv2.
  unfold_loop. rewrite Hin. cbn. unfold exhausted_exn.
  rewrite H0; cbn. rewrite Hv0; cbn.
  destruct (timeout_clause && is_timeout_exn e0); cbn;
    rewrite H1; cbn; rewrite Hv1; cbn;
    destruct (timeout_clause && is_timeout_exn e1); cbn;
    rewrite H2; cbn; rewrite Hv2; cbn;
    destruct (timeout_clause && is_timeout_exn e2); cbn; done.
Qed.

Lemma loop_raises_only_terminal (e : exn) :
  fst (loop initial_world) = Raised e ->
  (exists m, e = Exn terminal (msg_validation m)) \/
  (timeout_clause = true /\ e = Exn terminal msg_timeout) \/
  (exists m, e = Exn terminal (msg_failed m)).
Proof.
  unfold_loop. destruct valid_in; cbn; [|intros [= <-]; eauto].
  all_attempts; cbn; intros [= <-]; eauto.
Qed.

End RetryLoopMore.

(** X6. When all three attempts fail with errors that are retried, each loop
    makes exactly three compute calls with two sleeps between them (2 s and
    4 s for the LLM node and the graph, 1 s and 2 s for the tool node). The
    graph then raises GraphExecutionError with the message of the last
    failure, or with a message of its own when that was a timeout. A node
    run counts a returned result as such a failure (the lookup of
    validate_output raises) and ends in the NameError of the unbound name
    NodeExecutionError. *)
Theorem retry_loops_give_up_after_three_failures
    (py_str : value -> string) (config : Config)
    (compute : nat -> value -> outcome value)
    (ainvoke : nat -> AgentState -> outcome value) (input_data : value) :
  (validate_input input_data = true ->
   (forall k e, (k < 3)%nat -> compute k input_data = Raised e ->
                is_validation_exn e = false) ->
   Llm_3LLMNode_run compute input_data initial_world
   = (Raised (Exn NameError "name 'NodeExecutionError' is not defined"),
      World 3 [Invoke 0; Sleep 2; Invoke 1; Sleep 4; Invoke 2]) /\
   Llm_2ToolNode_run compute input_data initial_world
   = (Raised (Exn NameError "name 'NodeExecutionError' is not defined"),
      World 3 [Invoke 0; Sleep 1; Invoke 1; Sleep 2; Invoke 2])) /\
  (forall e0 e1 e2,
   _validate_graph_input input_data = true ->
   ainvoke 0%nat (initial_state py_str config input_data 0 3) = Raised e0 ->
   ainvoke 1%nat (initial_state py_str config input_data 1 3) = Raised e1 ->
   ainvoke 2%nat (initial_state py_str config input_data 2 3) = Raised e2 ->
   is_validation_exn e0 = false -> is_validation_exn e1 = false ->
   is_validation_exn e2 = false ->
   execute py_str config ainvoke input_data initial_world
   = (Raised (Exn GraphExecutionError
                (if is_timeout_exn e2 then "Graph execution timeout after 3 attempts"
                 else "Graph execution failed after 3 attempts: " +:+ exn_msg e2)),
      World 3 [Invoke 0; Sleep 2; Invoke 1; Sleep 4; Invoke 2])).
Proof.
  split.
  - intros Hin Hretried.
    assert (H0 := Hretried 0%nat). assert (H1 := Hretried 1%nat).
    assert (H2 := Hretried 2%nat).
    unfold Llm_3LLMNode_run, Llm_2ToolNode_run, for_each, try_except, wait_for,
      await_compute, validate_output, raise_NodeExecutionError, sleep, raise,
      initial_world, mbind, mret, M_bind, M_ret.
    rewrite Hin. cbn.
    destruct (compute 0%nat input_data) as [r0|e0]; cbn;
      [|rewrite (H0 e0) by (lia || done); cbn; destruct (is_timeout_exn e0); cbn];
      (destruct (compute 1%nat input_data) as [r1|e1]; cbn;
       [|rewrite (H1 e1) by (lia || done); cbn; destruct (is_timeout_exn e1); cbn]);
      (destruct (compute 2%nat input_data) as [r2|e2]; cbn;
       [|rewrite (H2 e2) by (lia || done); cbn; destruct (is_timeout_exn e2); cbn]);
      done.
  - intros e0 e1 e2 Hin H0 H1 H2 Hv0 Hv1 Hv2.
    rewrite execute_is_retry_loop.
    rewrite (loop_exhausted_run _ _
               (fun attempt k => ainvoke k (initial_state py_str config input_data attempt 3)))
      with (e0 := e0) (e1 := e1) (e2 := e2) by done.
    unfold exhausted_exn. cbn [andb]. by destruct (is_timeout_exn e2).
Qed.

Lemma retry_loops_give_up_witness :
  Llm_2ToolNode_run (fun _ _ => Raised (Exn OtherException "down")) (PyStr "q")
    initial_world
  = (Raised (Exn NameError "name 'NodeExecutionError' is not defined"),
     World 3 [Invoke 0; Sleep 1; Invoke 1; Sleep 2; Invoke 2]).
Proof.
  apply (proj1 (retry_loops_give_up_after_three_failures
                  str_of_simple default_config
                  (fun _ _ => Raised (Exn OtherException "down"))
                  (fun _ _ => Returned PyNone) (PyStr "q"))).
  - reflexivity.
  - intros k e _ [= <-]. reflexivity.
Defined.

(** X7. The first attempt of the graph that returns a valid result ends the
    loop: if attempt a (0, 1 or 2) is reached and the traversal returns a
    result that passes output validation, execute returns that result
    after a + 1 calls and a sleeps. *)
Theorem execute_returns_first_valid_result
    (py_str : value -> string) (config : Config)
    (ainvoke : nat -> AgentState -> outcome value) (input_data : value)
    (a : nat) (r : value) :
  (a < 3)%nat ->
  _validate_graph_input input_data = true ->
  reached (fun k => attempt_class _validate_graph_output
                      (ainvoke k (initial_state py_str config input_data k 3))) a ->
  ainvoke a (initial_state py_str config input_data a 3) = Returned r ->
  _validate_graph_output r = true ->
  let run := execute py_str config ainvoke input_data initial_world in
  fst run = Returned r /\ calls (snd run) = S a /\ length (delays (snd run)) = a.
Proof.
  intros Ha Hin Hreach Hret Hok run. subst run.
  rewrite execute_is_retry_loop.
  by apply (loop_success_at _ _
              (fun attempt k => ainvoke k (initial_state py_str config input_data attempt 3))).
Qed.

Lemma execute_returns_first_valid_result_witness :
  fst (execute str_of_simple default_config
         (fun k _ => match k with
                     | 0%nat => Raised (Exn OtherException "busy")
                     | _ => Returned (PyDict [("results", PyDict [])])
                     end)
         (PyStr "q") initial_world)
  = Returned (PyDict [("results", PyDict [])]).
Proof.
  refine (proj1 (execute_returns_first_valid_result
                   str_of_simple default_config
                   (fun k _ => match k with
                               | 0%nat => Raised (Exn OtherException "busy")
                               | _ => Returned (PyDict [("results", PyDict [])])
                               end)
                   (PyStr "q") 1%nat (PyDict [("results", PyDict [])])
                   _ _ _ _ _)); try reflexivity; [lia|].
  intros k Hk. assert (k = 0%nat) as -> by lia. reflexivity.
Defined.

(** X8. A loop sleeps only between two attempts: in every run the number of
    sleeps is the number of compute calls minus one (zero when no call was
    made), and the last recorded event is never a sleep. *)
Theorem retry_loops_never_sleep_after_last_attempt
    (py_str : value -> string) (config : Config)
    (compute : nat -> value -> outcome value)
    (ainvoke : nat -> AgentState -> outcome value) (input_data : value) :
  let llm := snd (Llm_3LLMNode_run compute input_data initial_world) in
  let tool := snd (Llm_2ToolNode_run compute input_data initial_world) in
  let run := snd (execute py_str config ainvoke input_data initial_world) in
  (length (delays llm) = Nat.pred (calls llm) /\ forall d, last (trace llm) <> Some (Sleep d)) /\
  (length (delays tool) = Nat.pred (calls tool) /\ forall d, last (trace tool) <> Some (Sleep d)) /\
  (length (delays run) = Nat.pred (calls run) /\ forall d, last (trace run) <> Some (Sleep d)).
Proof.
  intros llm tool run. subst llm tool run.
  rewrite llm_3_run_is_retry_loop, llm_2_tool_run_is_retry_loop, execute_is_retry_loop.
  split; [|split]; apply loop_sleeps_between_attempts.
Qed.

(** X9. Whatever the attempts do, a run of the LLM node or of the graph
    spends at most 6 seconds sleeping, and a run of the tool node at most
    3 seconds. *)
Theorem retry_loops_bound_the_total_delay
    (py_str : value -> string) (config : Config)
    (compute : nat -> value -> outcome value)
    (ainvoke : nat -> AgentState -> outcome value) (input_data : value) :
  0 <= total_delay (snd (Llm_3LLMNode_run compute input_data initial_world)) <= 6 /\
  0 <= total_delay (snd (Llm_2ToolNode_run compute input_data initial_world)) <= 3 /\
  0 <= total_delay (snd (execute py_str config ainvoke input_data initial_world)) <= 6.
Proof.
  rewrite llm_3_run_is_retry_loop, llm_2_tool_run_is_retry_loop, execute_is_retry_loop.
  split; [|split]; apply loop_total_delay; lia.
Qed.

Lemma head_char_differs (c d : ascii) (s t : string) :
  c <> d -> String c s <> String d t.
Proof. intros Hcd [= H _]. done. Qed.

(** X10. What the loops raise. Whatever execute raises is a
    GraphExecutionError, and the "Unexpected error" raise written after its
    for loop is never reached. A node run never returns: whatever the
    compute does and whatever the input, the run of the LLM node and the
    run of the tool node end in the NameError of the unbound name
    NodeExecutionError, so no exception of the compute and no result of it
    leaves the run. *)
Theorem retry_loops_raise_only_their_own_error
    (py_str : value -> string) (config : Config)
    (compute : nat -> value -> outcome value)
    (ainvoke : nat -> AgentState -> outcome value) (input_data : value) :
  (forall w, fst (Llm_3LLMNode_run compute input_data w)
             = Raised (Exn NameError "name 'NodeExecutionError' is not defined")) /\
  (forall w, fst (Llm_2ToolNode_run compute input_data w)
             = Raised (Exn NameError "name 'NodeExecutionError' is not defined")) /\
  (forall e, fst (execute py_str config ainvoke input_data initial_world) = Raised e ->
     exn_cls e = GraphExecutionError /\
     exn_msg e <> "Unexpected error in graph execution").
Proof.
  split; [|split].
  - intros w.
    unfold Llm_3LLMNode_run, for_each, try_except, wait_for, await_compute,
      validate_output, raise_NodeExecutionError, sleep, raise,
      mbind, mret, M_bind, M_ret.
    destruct (validate_input input_data); cbn; [|done].
    repeat match goal with
    | |- context [compute ?k input_data] =>
        let e := fresh "e" in
        destruct (compute k input_data) as [?|e]; cbn;
        [ | destruct (is_validation_exn e); cbn; [ | destruct (is_timeout_exn e); cbn ] ]
    end; reflexivity.
  - intros w.
    unfold Llm_2ToolNode_run, for_each, try_except, await_compute,
      validate_output, raise_NodeExecutionError, sleep, raise,
      mbind, mret, M_bind, M_ret.
    destruct (validate_input input_data); cbn; [|done].
    repeat match goal with
    | |- context [compute ?k input_data] =>
        let e := fresh "e" in
        destruct (compute k input_data) as [?|e]; cbn;
        [ | destruct (is_validation_exn e); cbn ]
    end; reflexivity.
  - rewrite execute_is_retry_loop. intros e H.
    apply loop_raises_only_terminal in H.
    destruct H as [[m ->]|[[Hclause ->]|[m ->]]];
      (split; [done|]); cbn [exn_msg]; by apply head_char_differs.
Qed.

(** ** The execution state: round trips and composition *)

(** X11. Reading a stage result after writing it gives the written value;
    writing leaves the result of every other stage as it was; a second write
    to the same stage replaces the first; writes to two different stages
    commute; and writing back the value already stored changes nothing. *)
Theorem stage_results_round_trip (state : AgentState) (stage : string) (v : value) :
  get_stage_result (set_stage_result state stage v) stage = Some v /\
  (forall other, other <> stage ->
      get_stage_result (set_stage_result state stage v) other
      = get_stage_result state other) /\
  (forall v', set_stage_result (set_stage_result state stage v) stage v'
              = set_stage_result state stage v') /\
  (forall other v', other <> stage ->
      set_stage_result (set_stage_result state stage v) other v'
      = set_stage_result (set_stage_result state other v') stage v) /\
  (get_stage_result state stage = Some v -> set_stage_result state stage v = state).
Proof.
  unfold get_stage_result, set_stage_result, update_state. cbn.
  split; [apply lookup_insert_eq|].
  split; [intros other Hne; by apply lookup_insert_ne|].
  split; [intros v'; by rewrite insert_insert_eq|].
  split.
  - intros other v' Hne. f_equal. by apply insert_insert_ne.
  - intros H. rewrite insert_id by done. by destruct state.
Qed.

(** X12. The state operations compose as expected: the last of two error
    updates wins, an error update commutes with a result update and a result
    update with an added message, two added messages are appended in call
    order, and clearing the error of a state without error changes nothing. *)
Theorem state_updates_compose (state : AgentState) :
  (forall err, clear_error (set_error state err) = clear_error state) /\
  (forall err err', set_error (set_error state err) err' = set_error state err') /\
  (forall err, set_error (clear_error state) err = set_error state err) /\
  (forall stage v err,
      set_error (set_stage_result state stage v) err
      = set_stage_result (set_error state err) stage v) /\
  (forall stage v msg,
      add_message (set_stage_result state stage v) msg
      = set_stage_result (add_message state msg) stage v) /\
  (forall msg msg',
      messages (add_message (add_message state msg) msg')
      = (messages state ++ [msg; msg'])%list) /\
  (error state = None -> clear_error state = state).
Proof.
  repeat split; try done.
  - intros msg msg'. cbn. by rewrite <- app_assoc.
  - intros H. destruct state. cbn in *. by subst.
Qed.

(** X13. The state dict written inline in execute is the one
    create_initial_state builds from the keyword arguments current_stage and
    metadata; a state created without keyword arguments has no stage result,
    no error and the single human message str(input_data); and an update
    with no keyword leaves a state as it is. *)
Theorem initial_state_agrees_with_constructor (py_str : value -> string)
    (config : Config) (input_data : value) (attempt max_retries : nat) :
  initial_state py_str config input_data attempt max_retries
  = create_initial_state py_str input_data
      (mkUpdates None None None None (Some (head (agent_stages config))) None
         (Some (<["max_retries" := PyInt (Z.of_nat max_retries)]>
                  (<["attempt" := PyInt (Z.of_nat attempt + 1)]> ∅)))) /\
  (forall stage,
      get_stage_result (create_initial_state py_str input_data no_updates) stage = None) /\
  error (create_initial_state py_str input_data no_updates) = None /\
  messages (create_initial_state py_str input_data no_updates)
  = [HumanMessage (py_str input_data)] /\
  update_state (create_initial_state py_str input_data no_updates) no_updates
  = create_initial_state py_str input_data no_updates.
Proof.
  split; [done|]. split; [intros stage; apply lookup_empty|]. done.
Qed.

(** ** Stage node functions: what a wrapper records and what it is given *)

(** X14. When the node instance is found and its run returns r, the wrapper
    returns a state whose result for the stage is r and whose messages end
    with the AI message "<label>: <str(r)>"; every other field, the error
    included, is the one of the state it received. *)
Theorem stage_node_records_result (py_str : value -> string)
    (inst : string -> string -> outcome (value -> M value))
    (stage node_type msg_label err_label : string)
    (state : AgentState) (w : world) (run : value -> M value) (r : value) (w' : world) :
  inst stage node_type = Returned run ->
  run (processing_input_of py_str stage state) w = (Returned r, w') ->
  exists state',
    stage_node py_str inst stage node_type msg_label err_label state w
      = (Returned state', w') /\
    results state' = <[stage := r]> (results state) /\
    messages state'
      = (messages state ++ [AIMessage (msg_label +:+ ": " +:+ py_str r)])%list /\
    error state' = error state /\
    input state' = input state /\ context state' = context state /\
    current_stage state' = current_stage state /\ metadata state' = metadata state.
Proof.
  intros Hinst Hrun.
  unfold stage_node, try_except, mbind, M_bind, lift_outcome.
  rewrite Hinst. cbn. rewrite Hrun. cbn. eexists. split; [reflexivity|]. done.
Qed.

Lemma stage_node_records_result_witness :
  exists state',
    stage_node str_of_simple failing_first "llm_2" "llm" "Llm_2" "Llm_2"
      (set_error abc_start "Llm_1 node error: down") initial_world
      = (Returned state', initial_world) /\
    results state' = <["llm_2" := PyStr "x|llm_2"]> ∅ /\
    error state' = Some "Llm_1 node error: down".
Proof.
  destruct (stage_node_records_result str_of_simple failing_first
              "llm_2" "llm" "Llm_2" "Llm_2"
              (set_error abc_start "Llm_1 node error: down") initial_world
              (fun input_data => mret (PyStr (str_of_simple input_data +:+ "|" +:+ "llm_2")))
              (PyStr "x|llm_2") initial_world eq_refl eq_refl)
    as (state' & Hrun & Hres & _ & Herr & _).
  exists state'. split; [exact Hrun|]. split; [exact Hres | exact Herr].
Defined.

Lemma processing_input_cases (py_str : value -> string) (stage : string)
    (state : AgentState) :
  processing_input_of py_str stage state
  = match previous_stage stage ≫= (fun prev => results state !! prev) with
    | Some v => if py_truthy v then v else PyStr (py_str (input state))
    | None => PyStr (py_str (input state))
    end.
Proof.
  unfold processing_input_of, previous_stage, index_or_minus_one.
  cbn [list_index].
  destruct (String.eqb_spec "llm_1" stage) as [<-|H1].
  { cbn. by destruct (bool_decide _). }
  destruct (String.eqb_spec "llm_2" stage) as [<-|H2].
  { cbn. case_bool_decide as He; cbn.
    - rewrite He, lookup_empty. done.
    - change (0 <? Z.of_nat 1) with true.
      change (Z.to_nat (Z.of_nat 1 - 1)) with 0%nat. cbn.
      by destruct (results state !! "llm_1") as [v|]. }
  destruct (String.eqb_spec "llm_3" stage) as [<-|H3].
  { cbn. case_bool_decide as He; cbn.
    - rewrite He, lookup_empty. done.
    - change (0 <? Z.of_nat 2) with true.
      change (Z.to_nat (Z.of_nat 2 - 1)) with 1%nat. cbn.
      by destruct (results state !! "llm_2") as [v|]. }
  destruct (String.eqb_spec stage "llm_2") as [->|_]; [done|].
  destruct (String.eqb_spec stage "llm_3") as [->|_]; [done|].
  cbn. by destruct (bool_decide _).
Qed.

(** X15. What a wrapper hands to its node: the result of the stage before
    its own when that result is stored and truthy, and str(input) otherwise
    (first stage, no stored result, or a stored result that is empty, zero,
    False or None). What it hands over is never None, so node-level input
    validation never fails inside a wrapper. *)
Theorem processing_input_choice (py_str : value -> string) (stage : string)
    (state : AgentState) :
  (previous_stage stage = None ->
   processing_input_of py_str stage state = PyStr (py_str (input state))) /\
  (forall prev v, previous_stage stage = Some prev ->
     results state !! prev = Some v -> py_truthy v = true ->
     processing_input_of py_str stage state = v) /\
  (forall prev, previous_stage stage = Some prev ->
     match results state !! prev with
     | Some v => py_truthy v = false
     | None => True
     end ->
     processing_input_of py_str stage state = PyStr (py_str (input state))) /\
  validate_input (processing_input_of py_str stage state) = true.
Proof.
  rewrite processing_input_cases.
  split; [by intros ->|]. split; [|split].
  - intros prev v -> Hv Ht. cbn. by rewrite Hv, Ht.
  - intros prev -> Hv. cbn. destruct (results state !! prev) as [v|]; [|done].
    by rewrite Hv.
  - destruct (previous_stage stage ≫= _) as [v|]; [|done].
    destruct (py_truthy v) eqn:Hv; [|done]. by destruct v.
Qed.

(** X16. A node made by create_custom_node never raises. When its logic
    returns, the result is stored and the error field is the one the node
    received: the clear_error call at its start has no effect on the state
    that is returned. When its logic raises, the state it received comes
    back with the error "<stage> error: <message>". *)
Theorem custom_node_keeps_error (stage_name : string)
    (logic_func : AgentState -> M value) (state : AgentState) (w : world) :
  never_raises (create_custom_node stage_name logic_func) /\
  (forall r w', logic_func state w = (Returned r, w') ->
     create_custom_node stage_name logic_func state w
     = (Returned (set_stage_result state stage_name r), w') /\
     error (set_stage_result state stage_name r) = error state) /\
  (forall e w', logic_func state w = (Raised e, w') ->
     create_custom_node stage_name logic_func state w
     = (Returned (set_error state (stage_name +:+ " error: " +:+ exn_msg e)), w')).
Proof.
  unfold create_custom_node, try_except, mbind, M_bind.
  split; [|split].
  - intros st0 w0. cbn. destruct (logic_func st0 w0) as [[r|e] w']; by eexists _, _.
  - intros r w' ->. done.
  - intros e w' ->. done.
Qed.

(** ** The node instance cache *)

(** X17. A node instance is built at most once per key: after a call that
    returned a node, the cache holds that node under "<name>_<type>", every
    other key is unchanged, and a later call with the same name and type
    returns the same node without importing anything. A call that raises
    leaves the cache as it was. Any node type other than "llm" is built as a
    tool node. *)
Theorem node_instances_are_cached {instance : Type}
    (import_llm_node import_tool_node : string -> outcome instance)
    (node_name node_type : string) (cache : gmap string instance) :
  let key := node_name +:+ "_" +:+ node_type in
  let run := _get_node_instance import_llm_node import_tool_node node_name node_type cache in
  (forall node cache', run = (Returned node, cache') ->
     cache' !! key = Some node /\
     (forall k, k <> key -> cache' !! k = cache !! k) /\
     (forall import_llm_node' import_tool_node',
        _get_node_instance import_llm_node' import_tool_node' node_name node_type cache'
        = (Returned node, cache'))) /\
  (forall e cache', run = (Raised e, cache') -> cache' = cache /\ cache !! key = None) /\
  (cache !! key = None -> node_type <> "llm" ->
   fst run = import_tool_node node_name).
Proof.
  intros key run. subst run. unfold _get_node_instance. fold key.
  destruct (cache !! key) as [node0|] eqn:Hc.
  - split; [|split; [|done]].
    + intros node cache' [= <- <-]. split; [done|]. split; [done|].
      intros imp1 imp2. fold key. by rewrite Hc.
    + intros e cache' [=].
  - split; [|split].
    + intros node cache' Hrun.
      destruct (if String.eqb node_type "llm" then _ else _) as [n|e]; [|done].
      injection Hrun as <- <-.
      split; [apply lookup_insert_eq|].
      split; [intros k Hk; by apply lookup_insert_ne|].
      intros imp1 imp2. fold key. by rewrite lookup_insert_eq.
    + intros e cache' Hrun.
      destruct (if String.eqb node_type "llm" then _ else _) as [n|e']; [done|].
      by injection Hrun as <- <-.
    + intros _ Hty. destruct (String.eqb_spec node_type "llm") as [->|_]; [done|].
      by destruct (import_tool_node node_name).
Qed.

(** ** The built graph *)

Lemma foldl_select_lookup (table : gmap string node_fn) (stages : list string)
    (acc : gmap string node_fn) (s : string) :
  foldl (fun acc stage =>
           match table !! stage with
           | Some f => <[stage := f]> acc
           | None => acc
           end) acc stages !! s
  = match (if bool_decide (s ∈ stages) then table !! s else None) with
    | Some f => Some f
    | None => acc !! s
    end.
Proof.
  revert acc. induction stages as [|x stages IH]; intros acc; [done|].
  cbn [foldl]. rewrite IH.
  destruct (decide (s ∈ stages)) as [Hin|Hnin].
  - rewrite !bool_decide_eq_true_2 by (done || by right).
    destruct (table !! s) as [f|] eqn:Hs; [done|].
    destruct (table !! x) as [g|] eqn:Hx; [|done].
    rewrite lookup_insert_ne; [done|]. by intros ->; congruence.
  - rewrite (bool_decide_eq_false_2 (s ∈ stages)) by done.
    destruct (decide (s = x)) as [->|Hne].
    + rewrite bool_decide_eq_true_2 by by left.
      destruct (table !! x) as [g|]; [by rewrite lookup_insert_eq | done].
    + rewrite bool_decide_eq_false_2.
      2:{ intros [->|H]%elem_of_cons; done. }
      destruct (table !! x) as [g|]; [by rewrite lookup_insert_ne | done].
Qed.

Lemma node_functions_table (py_str : value -> string)
    (inst : string -> string -> outcome (value -> M value)) :
  <["llm_3" := llm_3_tool_node py_str inst]>
    (<["llm_2" := llm_2_tool_node py_str inst]>
       (<["llm_1" := llm_1_tool_node py_str inst]>
          (<["llm_3" := llm_3_node py_str inst]>
             (<["llm_2" := llm_2_node py_str inst]>
                (<["llm_1" := llm_1_node py_str inst]> (∅ : gmap string node_fn))))))
  = default_table py_str inst.
Proof.
  unfold default_table. apply map_eq. intros i.
  rewrite !lookup_insert. repeat case_decide; done.
Qed.

Lemma get_graph_nodes_lookup (py_str : value -> string)
    (inst : string -> string -> outcome (value -> M value))
    (config : Config) (s : string) :
  get_graph_nodes py_str inst config !! s
  = if bool_decide (s ∈ agent_stages config) then default_table py_str inst !! s else None.
Proof.
  unfold get_graph_nodes. rewrite node_functions_table, foldl_select_lookup.
  rewrite lookup_empty. by destruct (if bool_decide _ then _ else _).
Qed.

Lemma foldl_add_node_edges (table : gmap string node_fn) (stages : list string)
    (g : StateGraph) :
  edges (foldl (fun g stage =>
                  match table !! stage with
                  | Some f => add_node g stage f
                  | None => g
                  end) g stages) = edges g.
Proof.
  revert g. induction stages as [|x stages IH]; intros g; [done|].
  cbn [foldl]. rewrite IH. by destruct (table !! x).
Qed.

Lemma foldl_add_node_nodes (table : gmap string node_fn) (stages : list string)
    (g : StateGraph) :
  nodes (foldl (fun g stage =>
                  match table !! stage with
                  | Some f => add_node g stage f
                  | None => g
                  end) g stages)
  = foldl (fun acc stage =>
             match table !! stage with
             | Some f => <[stage := f]> acc
             | None => acc
             end) (nodes g) stages.
Proof.
  revert g. induction stages as [|x stages IH]; intros g; [done|].
  cbn [foldl]. rewrite IH. by destruct (table !! x).
Qed.

(** X18. For every configuration with distinct stage names, the graph
    handed to compile has a node exactly for the configured stages that are
    among llm_1, llm_2 and llm_3, each bound to the tool wrapper of that
    stage (the later dict entries of get_graph_nodes overwrite the LLM
    wrappers); a stage with any other name gets no node although the edges
    still name it. The edges are the entry edge from START followed by one
    edge per stage, conditional for all but the last. *)
Theorem built_graph_shape (py_str : value -> string)
    (inst : string -> string -> outcome (value -> M value)) (config : Config) :
  NoDup (agent_stages config) ->
  (forall s,
      nodes (_build_graph py_str inst config) !! s
      = if bool_decide (s ∈ agent_stages config)
        then default_table py_str inst !! s else None) /\
  (forall s, get_graph_nodes py_str inst config !! s
             = nodes (_build_graph py_str inst config) !! s) /\
  edges (_build_graph py_str inst config)
  = match agent_stages config with
    | [] => []
    | s :: _ => Edge START (Stage s) :: chain state_graph_link (agent_stages config)
    end.
Proof.
  intros _. destruct config as [stages]. unfold _build_graph. cbn [agent_stages].
  set (table := get_graph_nodes py_str inst (mkConfig stages)).
  set (g1 := foldl _ empty_graph stages).
  assert (Hedges : edges g1 = []) by apply foldl_add_node_edges.
  assert (Hnodes : forall s, nodes g1 !! s
            = if bool_decide (s ∈ stages) then default_table py_str inst !! s else None).
  { intros s. unfold g1. rewrite foldl_add_node_nodes, foldl_select_lookup.
    unfold table. rewrite get_graph_nodes_lookup. cbn [agent_stages].
    unfold empty_graph. cbn [nodes]. rewrite lookup_empty.
    by destruct (bool_decide (s ∈ stages)), (default_table py_str inst !! s). }
  assert (Hg1 : g1 = mkGraph (nodes g1) []).
  { destruct g1. cbn in Hedges. by subst. }
  assert (Hshape : _add_state_graph_edges (mkConfig stages) g1
            = mkGraph (nodes g1)
                match stages with
                | [] => []
                | s :: _ => Edge START (Stage s) :: chain state_graph_link stages
                end).
  { rewrite Hg1 at 1. destruct stages as [|s stages']; [done|].
    apply add_state_graph_edges_spec. }
  rewrite Hshape. cbn [nodes edges].
  split; [done|]. split; [|done].
  intros s. rewrite Hnodes. unfold table. by rewrite get_graph_nodes_lookup.
Qed.

Lemma built_graph_shape_witness :
  nodes (_build_graph str_of_simple failing_first (mkConfig ["llm_2"; "review"])) !! "review"
  = None /\
  edges (_build_graph str_of_simple failing_first (mkConfig ["llm_2"; "review"]))
  = Edge START (Stage "llm_2") :: chain state_graph_link ["llm_2"; "review"].
Proof.
  assert (Hdistinct : NoDup (agent_stages (mkConfig ["llm_2"; "review"]))).
  { repeat (apply NoDup_cons_2;
              [rewrite ?elem_of_cons, elem_of_nil; intuition discriminate|]).
    apply NoDup_nil_2. }
  destruct (built_graph_shape str_of_simple failing_first
              (mkConfig ["llm_2"; "review"]) Hdistinct) as (Hnodes & _ & Hedges).
  split; [exact (Hnodes "review") | exact Hedges].
Defined.

Lemma map_nth_seq {A : Type} (f : string -> A) (pre suf : list string) :
  map (fun i => f (nth i (pre ++ suf) "")) (seq (length pre) (length suf)) = map f suf.
Proof.
  revert pre. induction suf as [|s suf IH]; intros pre; [done|].
  cbn [length seq map]. f_equal.
  - rewrite app_nth2 by lia. by rewrite Nat.sub_diag.
  - specialize (IH (pre ++ [s])%list).
    rewrite <- app_assoc, length_app in IH. cbn [length app] in IH.
    replace (length pre + 1)%nat with (S (length pre)) in IH by lia. done.
Qed.

Lemma router_edges_shape (table : gmap string node_fn) (stages : list string) :
  _add_router_edges (mkConfig stages) (mkGraph table [])
  = mkGraph table
      match stages with
      | first :: second :: rest =>
          Edge (Stage first) (Stage second)
            :: map (fun s => Edge (Stage s) END) (second :: rest)
      | _ => []
      end.
Proof.
  unfold _add_router_edges. cbn [agent_stages].
  destruct stages as [|first [|second rest]]; [done | done |].
  change (2 <=? length (first :: second :: rest))%nat with true. cbn iota.
  rewrite (foldl_add_edges _ (fun i => Edge (Stage (nth i (first :: second :: rest) "")) END))
    by done.
  unfold add_edge. cbn [nodes edges app nth]. f_equal. f_equal.
  replace (length (first :: second :: rest) - 1)%nat with (length (second :: rest))
    by (cbn; lia).
  apply (map_nth_seq (fun s => Edge (Stage s) END) [first] (second :: rest)).
Qed.

(** X19. For distinct stage names the router wiring adds nothing for fewer
    than two stages; otherwise it adds one edge from the first stage to the
    second and one edge from every later stage to END. So the only stage an
    edge leads to is the second one: with three or more stages the third and
    later stages have no incoming edge, and no edge starts at START. *)
Theorem router_reaches_only_second_stage (table : gmap string node_fn)
    (stages : list string) :
  NoDup stages ->
  let wired := edges (_add_router_edges (mkConfig stages) (mkGraph table [])) in
  ((length stages < 2)%nat -> wired = []) /\
  (forall first second rest, stages = first :: second :: rest ->
     wired = Edge (Stage first) (Stage second)
               :: map (fun s => Edge (Stage s) END) (second :: rest)) /\
  (forall src t, In (Edge src (Stage t)) wired ->
     src = Stage (nth 0 stages "") /\ t = nth 1 stages "" /\ (2 <= length stages)%nat) /\
  (forall dst, ~ In (Edge START dst) wired).
Proof.
  intros _ wired. subst wired. rewrite router_edges_shape. cbn [edges].
  split; [|split; [|split]].
  - destruct stages as [|first [|second rest]]; [done | done | cbn; lia].
  - by intros first second rest ->.
  - intros src t.
    destruct stages as [|first [|second rest]]; [done | done |].
    cbn [In nth length]. intros [[= <- <-]|Hin]; [split; [done|split; [done|lia]]|].
    exfalso. destruct Hin as [[=]|Hin].
    apply in_map_iff in Hin as (s & [=] & _).
  - intros dst.
    destruct stages as [|first [|second rest]]; [by intros [] | by intros [] |].
    cbn [In]. intros [[=]|[[=]|Hin]].
    apply in_map_iff in Hin as (s & [=] & _).
Qed.

Lemma router_reaches_only_second_stage_witness :
  edges (_add_router_edges (mkConfig ["a"; "b"; "c"]) (mkGraph abc_table []))
  = [Edge (Stage "a") (Stage "b"); Edge (Stage "b") END; Edge (Stage "c") END].
Proof.
  assert (Hdistinct : NoDup ["a"; "b"; "c"]).
  { repeat (apply NoDup_cons_2;
              [rewrite ?elem_of_cons, elem_of_nil; intuition discriminate|]).
    apply NoDup_nil_2. }
  exact (proj1 (proj2 (router_reaches_only_second_stage abc_table ["a"; "b"; "c"] Hdistinct))
           "a" "b" ["c"] eq_refl).
Defined.

(** ** The use-case executor: expected output *)

Lemma validate_output_cons_met (py_str : value -> string) (actual : value)
    (key : string) (expected_value : value) (rest : list (string * value)) :
  present_with_equal_value actual key expected_value ->
  _validate_output py_str actual (PyDict ((key, expected_value) :: rest))
  = _validate_output py_str actual (PyDict rest).
Proof.
  intros (v' & Hget & Heq).
  destruct actual as [| | | | | |d]; try done.
  cbn in Hget. destruct (dict_get d key) as [v''|] eqn:Hd; [|done].
  injection Hget as ->.
  unfold _validate_output. cbn. unfold dict_mem. rewrite Hd. cbn. by rewrite Heq.
Qed.

(** X20. Dict validation reports the first unmet key in the order of the
    expected dict: when every entry before a key is met, a missing key gives
    "Missing expected key: <key>" and an unequal value gives the mismatch
    message for that key, whatever entries follow. *)
Theorem validation_reports_first_unmet_key (py_str : value -> string)
    (actual : list (string * value)) (met : list (string * value))
    (key : string) (expected_value : value) (rest : list (string * value)) :
  (forall k v, In (k, v) met -> present_with_equal_value (PyDict actual) k v) ->
  let expected := PyDict (met ++ (key, expected_value) :: rest)%list in
  (dict_get actual key = None ->
   _validate_output py_str (PyDict actual) expected
   = CheckResult false ("Missing expected key: " +:+ key)) /\
  (forall actual_value,
     dict_get actual key = Some actual_value ->
     py_eq actual_value expected_value = false ->
     _validate_output py_str (PyDict actual) expected
     = CheckResult false
         ("Value mismatch for key '" +:+ key +:+ "': expected "
          +:+ py_str expected_value +:+ ", got " +:+ py_str actual_value)).
Proof.
  intros Hmet expected. subst expected.
  induction met as [|[k v] met IH].
  - cbn [app]. split.
    + intros Hk. unfold _validate_output. cbn. unfold dict_mem. by rewrite Hk.
    + intros av Hk Hne. unfold _validate_output. cbn. unfold dict_mem.
      rewrite Hk. cbn. by rewrite Hne.
  - cbn [app]. rewrite validate_output_cons_met by (apply Hmet; by left).
    apply IH. intros k' v' Hin. apply Hmet. by right.
Qed.

Lemma validation_reports_first_unmet_key_witness :
  _validate_output str_of_simple
    (PyDict [("status", PyStr "ok"); ("count", PyInt 2)])
    (PyDict [("status", PyStr "ok"); ("count", PyInt 3); ("missing", PyNone)])
  = CheckResult false "Value mismatch for key 'count': expected 3, got 2".
Proof.
  refine (proj2 (validation_reports_first_unmet_key str_of_simple
                   [("status", PyStr "ok"); ("count", PyInt 2)]
                   [("status", PyStr "ok")] "count" (PyInt 3) [("missing", PyNone)] _)
                (PyInt 2) eq_refl eq_refl).
  intros k v [[= <- <-]|[]]. exists (PyStr "ok"). split; reflexivity.
Defined.

(** X21. An empty expected dict is met by every output, a dict or not; a
    non-empty expected dict is never met by an output that is not a dict. *)
Theorem validation_against_dict_needs_dict (py_str : value -> string) (actual : value) :
  _validate_output py_str actual (PyDict [])
    = CheckResult true "Output validation passed" /\
  (forall expected, is_dict actual = false -> expected <> [] ->
     passed (_validate_output py_str actual (PyDict expected)) = false).
Proof.
  split; [done|]. intros expected Hnd Hne.
  destruct expected as [|[k v] expected]; [done|].
  unfold _validate_output.
  destruct actual as [| | | |s|l|d]; try done; cbn.
  - by destruct (is_substring k s).
  - by destruct (existsb _ l).
Qed.

(** ** The use-case executor: expected behaviour *)

Section BehaviorFacts.

Variable py_str : value -> string.

Lemma check_one_fails_only (output check : value) (res : check_result) :
  check_one py_str output check = Returned (Some res) -> passed res = false.
Proof.
  unfold check_one, mbind, outcome_bind, fmap, outcome_fmap.
  destruct check as [| | | | | |d]; try done. cbn [py_get].
  repeat match goal with
  | |- context [if ?b then _ else _] => destruct b
  | |- context [match ?o with Returned _ => _ | Raised _ => _ end] => destruct o
  end; try done; by intros [= <-].
Qed.

Lemma check_behavior_checks (output : value) (d : list (string * value))
    (l : list value) :
  dict_get d "checks" = Some (PyList l) ->
  _check_behavior py_str output (PyDict d)
  = _check_behavior py_str output (PyDict [("checks", PyList l)]).
Proof. intros H. unfold _check_behavior. cbn [py_get]. by rewrite H. Qed.

Lemma check_behavior_cons (output c : value) (l : list value) :
  _check_behavior py_str output (PyDict [("checks", PyList (c :: l))])
  = match check_one py_str output c with
    | Returned (Some res) => res
    | Returned None => _check_behavior py_str output (PyDict [("checks", PyList l)])
    | Raised e => CheckResult false ("Behavior check error: " +:+ exn_msg e)
    end.
Proof.
  unfold _check_behavior. cbn.
  by destruct (check_one py_str output c) as [[res|]|e].
Qed.

Lemma check_one_unknown_type (output : value) (cd : list (string * value)) :
  known_check_type (default PyNone (dict_get cd "type")) = false ->
  check_one py_str output (PyDict cd) = Returned None.
Proof.
  unfold known_check_type, check_one. cbn [py_get mbind outcome_bind].
  intros H. repeat (apply orb_false_iff in H as [H ?]).
  by repeat match goal with Hx : py_eq _ _ = false |- _ => rewrite Hx; clear Hx end.
Qed.

End BehaviorFacts.

Lemma Qle_bool_inject (a b : Z) : Qle_bool (inject_Z a) (inject_Z b) = (a <=? b).
Proof.
  unfold Qle_bool, inject_Z. cbn. by rewrite !Z.mul_1_r.
Qed.

(** X22. A behaviour dict without a "checks" entry passes, and so does one
    whose checks all have a type outside the six known ones (a misspelt or
    missing type included): such a check is skipped without a failure. *)
Theorem unknown_checks_are_ignored (py_str : value -> string) (output : value)
    (d : list (string * value)) :
  (dict_get d "checks" = None ->
   _check_behavior py_str output (PyDict d)
   = CheckResult true "All behavior checks passed") /\
  (forall l,
      dict_get d "checks" = Some (PyList l) ->
      Forall (fun c => exists cd, c = PyDict cd /\
                known_check_type (default PyNone (dict_get cd "type")) = false) l ->
      _check_behavior py_str output (PyDict d)
      = CheckResult true "All behavior checks passed").
Proof.
  split.
  - intros H. unfold _check_behavior. cbn [py_get]. by rewrite H.
  - intros l Hd Hall. rewrite (check_behavior_checks _ _ _ _ Hd). clear Hd.
    induction Hall as [|c l (cd & -> & Hc) _ IH]; [done|].
    rewrite check_behavior_cons, check_one_unknown_type by done. exact IH.
Qed.

(** X23. The checks run in list order and stop at the first failure: a list
    of checks followed by more checks gives the result of the first list
    when that fails, and the result of the rest when it passes; so a list
    passes exactly when both parts pass. *)
Theorem checks_stop_at_first_failure (py_str : value -> string) (output : value)
    (l1 l2 : list value) :
  let run l := _check_behavior py_str output (PyDict [("checks", PyList l)]) in
  (passed (run l1) = false -> run (l1 ++ l2)%list = run l1) /\
  (passed (run l1) = true -> run (l1 ++ l2)%list = run l2) /\
  passed (run (l1 ++ l2)%list) = passed (run l1) && passed (run l2).
Proof.
  intros run. subst run. cbn beta.
  assert (H : (passed (_check_behavior py_str output (PyDict [("checks", PyList l1)])) = false ->
               _check_behavior py_str output (PyDict [("checks", PyList (l1 ++ l2))])
               = _check_behavior py_str output (PyDict [("checks", PyList l1)])) /\
              (passed (_check_behavior py_str output (PyDict [("checks", PyList l1)])) = true ->
               _check_behavior py_str output (PyDict [("checks", PyList (l1 ++ l2))])
               = _check_behavior py_str output (PyDict [("checks", PyList l2)]))).
  { induction l1 as [|c l1 IH]; [by split|].
    cbn [app]. rewrite !check_behavior_cons.
    destruct (check_one py_str output c) as [[res|]|e] eqn:Hc; [| exact IH |by split].
    apply check_one_fails_only in Hc. split; [done | congruence]. }
  destruct H as [Hf Ht]. split; [done|]. split; [done|].
  destruct (passed (_check_behavior py_str output (PyDict [("checks", PyList l1)]))) eqn:Hp.
  - by rewrite Ht.
  - by rewrite Hf, Hp.
Qed.

(** X24. The two length checks are strict: length_greater_than n passes
    exactly when n < len(str(output)) and length_less_than n exactly when
    len(str(output)) < n, so an output of exactly n characters fails both. A
    length check without a value fails (the comparison with None raises and
    the error is reported as a failed check). *)
Theorem length_checks_are_strict (py_str : value -> string) (output : value) (n : Z) :
  let len := Z.of_nat (String.length (py_str output)) in
  let check (kind : string) (v : value) :=
    PyDict [("checks", PyList [PyDict [("type", PyStr kind); ("value", v)]])] in
  passed (_check_behavior py_str output (check "length_greater_than" (PyInt n)))
    = (n <? len) /\
  passed (_check_behavior py_str output (check "length_less_than" (PyInt n)))
    = (len <? n) /\
  passed (_check_behavior py_str output (check "length_greater_than" PyNone)) = false /\
  passed (_check_behavior py_str output (check "length_less_than" PyNone)) = false.
Proof.
  intros len check. subst check. cbn beta.
  rewrite !check_behavior_cons. unfold check_one. cbn.
  rewrite !Qle_bool_inject. fold len.
  repeat split.
  - destruct (Z.leb_spec len n), (Z.ltb_spec n len); try lia; done.
  - destruct (Z.leb_spec n len), (Z.ltb_spec len n); try lia; done.
Qed.

(** ** The use-case executor: one use case and a batch *)

Lemma status_of_known (v b : option check_result) :
  known_status (status_of v b) = true.
Proof.
  unfold status_of. destruct b as [b|], v as [v|];
    repeat match goal with |- context [passed ?c] => destruct (passed c) end; done.
Qed.

Section BatchFacts.

Variable py_str : value -> string.
Variable get_agent : outcome agent.
Variable clock : nat -> Q * string.

Lemma load_agent_after_load (self_agent : option agent) (loaded : agent) :
  load_agent get_agent self_agent = Returned loaded ->
  load_agent get_agent (agent_after_load get_agent self_agent) = Returned loaded.
Proof. intros H. unfold agent_after_load. by rewrite H. Qed.

Lemma execute_use_case_dict_returns (elapsed : Q) (end_time_iso : string)
    (self_agent : option agent) (loaded : agent) (d : list (string * value)) :
  load_agent get_agent self_agent = Returned loaded ->
  exists r,
    execute_use_case py_str get_agent elapsed end_time_iso self_agent (PyDict d)
      = Returned r /\
    known_status (status r) = true.
Proof.
  intros Hload. unfold execute_use_case. rewrite Hload.
  cbn [py_get mbind outcome_bind].
  destruct (loaded _) as [res|e]; cbn [mbind outcome_bind].
  - destruct (is_none (default PyNone (dict_get d "expected_output")));
      destruct (is_none (default PyNone (dict_get d "expected_behavior")));
      cbn [negb]; (eexists; split; [reflexivity|]); cbn;
      repeat match goal with |- context [passed ?c] => destruct (passed c) end; done.
  - eexists. split; [reflexivity|done].
Qed.

Lemma execute_use_case_not_dict_raises (elapsed : Q) (end_time_iso : string)
    (self_agent : option agent) (use_case : value) :
  is_dict use_case = false ->
  exists e,
    execute_use_case py_str get_agent elapsed end_time_iso self_agent use_case
    = Raised e.
Proof.
  intros H. unfold execute_use_case.
  destruct (load_agent get_agent self_agent) as [loaded|e]; [|by eexists].
  cbn [mbind outcome_bind]. destruct use_case; try done; by eexists.
Qed.

Lemma execute_each_all_dicts (self_agent : option agent) (loaded : agent)
    (i : nat) (l : list value) :
  load_agent get_agent self_agent = Returned loaded ->
  Forall (fun u => is_dict u = true) l ->
  exists results,
    execute_each py_str get_agent clock self_agent i l = Returned results /\
    length results = length l /\
    Forall (fun r => known_status (status r) = true) results.
Proof.
  intros Hload Hall. revert self_agent Hload i.
  induction Hall as [|u l Hu _ IH]; intros self_agent Hload i.
  - by exists [].
  - destruct u; try done.
    destruct (execute_use_case_dict_returns (fst (clock i)) (snd (clock i))
                self_agent loaded entries Hload) as (r & Hr & Hs).
    destruct (IH _ (load_agent_after_load _ _ Hload) (S i)) as (rs & Hrs & Hlen & Hst).
    exists (r :: rs). cbn [execute_each]. rewrite Hr. cbn [mbind outcome_bind].
    rewrite Hrs. cbn [mbind outcome_bind]. split; [done|].
    split; [cbn; by rewrite Hlen | by constructor].
Qed.

Lemma execute_each_malformed (self_agent : option agent) (i : nat) (l : list value) :
  Exists (fun u => is_dict u = false) l ->
  exists e, execute_each py_str get_agent clock self_agent i l = Raised e.
Proof.
  intros Hex. revert self_agent i.
  induction Hex as [u l Hu|u l _ IH]; intros self_agent i.
  - cbn [execute_each].
    destruct (execute_use_case_not_dict_raises (fst (clock i)) (snd (clock i))
                self_agent u Hu) as (e & ->).
    by eexists.
  - cbn [execute_each].
    destruct (execute_use_case _ _ _ _ _ u) as [r|e]; [|by eexists].
    cbn [mbind outcome_bind].
    destruct (IH (agent_after_load get_agent self_agent) (S i)) as (e & ->).
    by eexists.
Qed.

Lemma execute_each_unloadable (self_agent : option agent) (e : exn)
    (i : nat) (u : value) (l : list value) :
  load_agent get_agent self_agent = Raised e ->
  execute_each py_str get_agent clock self_agent i (u :: l) = Raised e.
Proof.
  intros Hload. cbn [execute_each]. unfold execute_use_case. by rewrite Hload.
Qed.

End BatchFacts.


(** X26. A use case that is not a dict always makes execute_use_case raise.
    With the agent loaded the exception is an AttributeError: the except
    clause itself calls use_case.get, so the error escapes instead of
    becoming an "error" result. When get_agent raises, that exception
    leaves the function first. *)
Theorem malformed_use_case_raises (py_str : value -> string)
    (get_agent : outcome agent) (self_agent : option agent)
    (elapsed : Q) (end_time_iso : string) (use_case : value) :
  is_dict use_case = false ->
  let run := execute_use_case py_str get_agent elapsed end_time_iso self_agent use_case in
  (exists e, run = Raised e) /\
  (forall e, load_agent get_agent self_agent = Raised e -> run = Raised e) /\
  (forall agent_execute, load_agent get_agent self_agent = Returned agent_execute ->
     exists e, run = Raised e /\ exn_cls e = AttributeError).
Proof.
  intros H run. subst run. unfold execute_use_case.
  destruct (load_agent get_agent self_agent) as [loaded|e0]; cbn [mbind outcome_bind].
  - split; [|split; [done|]].
    + destruct use_case; try done; by eexists.
    + intros agent_execute _. destruct use_case; try done; by eexists.
  - split; [by eexists|]. split; [by intros e [= ->]|]. done.
Qed.

Lemma malformed_use_case_raises_witness :
  exists e,
    execute_use_case str_of_simple (Returned status_y_agent) 0%Q "2025-01-01T00:00:00"
      None (PyStr "not a use case") = Raised e /\
    exn_cls e = AttributeError.
Proof.
  apply (proj2 (proj2 (malformed_use_case_raises str_of_simple (Returned status_y_agent)
                         None 0%Q "2025-01-01T00:00:00" (PyStr "not a use case")
                         eq_refl)) status_y_agent).
  reflexivity.
Defined.

(** X27. execute_use_cases_from_file is all or nothing. A file that cannot
    be loaded, or whose document is not a dict, gives the empty list and
    leaves self.results as it was. With the agent loaded and a list of use
    cases that are all dicts it returns one result per use case, each with
    one of the four statuses, and appends them to self.results. If
    get_agent raises on a non-empty list, or if any use case of the list is
    not a dict, it returns the empty list and appends nothing, the results
    of the use cases that ran before included. *)
Theorem batch_is_all_or_nothing (py_str : value -> string)
    (get_agent : outcome agent) (clock : nat -> Q * string)
    (load_json : string -> outcome value) (self_agent : option agent)
    (self_results : list execution_result) (file_path : string) :
  let run := execute_use_cases_from_file py_str get_agent clock load_json
               self_agent self_results file_path in
  (forall e, load_json file_path = Raised e -> run = ([], self_results)) /\
  (forall data, load_json file_path = Returned data -> is_dict data = false ->
     run = ([], self_results)) /\
  (forall d l, load_json file_path = Returned (PyDict d) ->
     dict_get d "use_cases" = Some (PyList l) ->
     (forall agent_execute,
        load_agent get_agent self_agent = Returned agent_execute ->
        Forall (fun u => is_dict u = true) l ->
        exists results,
          run = (results, (self_results ++ results)%list) /\
          length results = length l /\
          Forall (fun r => known_status (status r) = true) results) /\
     (forall e, load_agent get_agent self_agent = Raised e -> run = ([], self_results)) /\
     (Exists (fun u => is_dict u = false) l -> run = ([], self_results))).
Proof.
  intros run. subst run. unfold execute_use_cases_from_file.
  split; [by intros e ->|]. split.
  - intros data -> Hd. by destruct data.
  - intros d l -> Hl. cbn [mbind outcome_bind py_get]. rewrite Hl.
    cbn [default from_option id].
    destruct l as [|u l].
    + split; [|split]; [| done | by intros H; inversion H].
      intros _ _ _. exists []. cbn. by rewrite app_nil_r.
    + cbn [py_truthy length Nat.eqb negb py_iter mbind outcome_bind].
      split; [|split].
      * intros agent_execute Hload Hall.
        destruct (execute_each_all_dicts py_str get_agent clock self_agent agent_execute
                    0 (u :: l) Hload Hall) as (rs & -> & Hlen & Hst).
        by exists rs.
      * intros e Hload.
        by rewrite (execute_each_unloadable py_str get_agent clock self_agent e 0 u l Hload).
      * intros Hex.
        by destruct (execute_each_malformed py_str get_agent clock self_agent 0 (u :: l) Hex)
          as (e & ->).
Qed.

(** ** The report: counters and rate *)

Lemma count_status_cons (s : string) (r : execution_result)
    (rs : list execution_result) :
  count_status s (r :: rs)
  = ((if String.eqb (status r) s then 1 else 0) + count_status s rs)%nat.
Proof. unfold count_status. cbn. by destruct (String.eqb (status r) s). Qed.

Lemma count_status_le (s : string) (rs : list execution_result) :
  (count_status s rs <= length rs)%nat.
Proof.
  induction rs as [|r rs IH]; [done|]. rewrite count_status_cons. cbn [length].
  destruct (String.eqb (status r) s); lia.
Qed.

Lemma counts_partition (rs : list execution_result) :
  Forall (fun r => known_status (status r) = true) rs ->
  (count_status "success" rs + count_status "validation_failed" rs
   + count_status "behavior_failed" rs + count_status "error" rs = length rs)%nat.
Proof.
  induction 1 as [|r rs Hr _ IH]; [done|].
  rewrite !count_status_cons. cbn [length]. unfold known_status in Hr.
  destruct (String.eqb_spec (status r) "success") as [He|_]; [rewrite ?He; cbn; lia|].
  destruct (String.eqb_spec (status r) "validation_failed") as [He|_];
    [rewrite ?He; cbn; lia|].
  destruct (String.eqb_spec (status r) "behavior_failed") as [He|_];
    [rewrite ?He; cbn; lia|].
  destruct (String.eqb_spec (status r) "error") as [He|_]; [rewrite ?He; cbn; lia|].
  done.
Qed.

Lemma counts_disjoint (rs : list execution_result) :
  (count_status "success" rs + count_status "validation_failed" rs
   + count_status "behavior_failed" rs + count_status "error" rs <= length rs)%nat.
Proof.
  induction rs as [|r rs IH]; [done|].
  rewrite !count_status_cons. cbn [length].
  destruct (String.eqb_spec (status r) "success") as [He|_]; [rewrite ?He; cbn; lia|].
  destruct (String.eqb_spec (status r) "validation_failed") as [He|_];
    [rewrite ?He; cbn; lia|].
  destruct (String.eqb_spec (status r) "behavior_failed") as [He|_];
    [rewrite ?He; cbn; lia|].
  destruct (String.eqb (status r) "error"); lia.
Qed.

Lemma rate_bounds (c n : nat) :
  (c <= S n)%nat ->
  (0 <= inject_Z (Z.of_nat c) / inject_Z (Z.of_nat (S n)) * 100 <= 100)%Q.
Proof.
  intros Hc. change (Z.of_nat (S n)) with (Z.pos (Pos.of_succ_nat n)).
  unfold Qle, Qdiv, Qmult, Qinv, inject_Z. cbn [Qnum Qden].
  rewrite ?Pos.mul_1_l, ?Pos.mul_1_r.
  pose proof (Zpos_P_of_succ_nat n) as Hp.
  split; nia.
Qed.

(** X28. In a summary report the listed results are the argument (or
    self.results when the argument is None), total_cases is their number,
    the four status counters never add up to more than total_cases and add
    up to exactly total_cases when every result has one of the four
    statuses, and success_rate lies between 0 and 100. *)
Theorem report_counts (self_results : list execution_result)
    (results : option (list execution_result)) (now_iso : string)
    (summary : report_summary) (rs : list execution_result) (generated_at : string) :
  generate_report self_results results now_iso
    = Returned (ReportSummary summary rs generated_at) ->
  rs = default self_results results /\ generated_at = now_iso /\
  total_cases summary = length rs /\
  (successful summary + validation_failed summary + behavior_failed summary
   + errors summary <= total_cases summary)%nat /\
  (Forall (fun r => known_status (status r) = true) rs ->
   (successful summary + validation_failed summary + behavior_failed summary
    + errors summary = total_cases summary)%nat) /\
  (0 <= success_rate summary <= 100)%Q.
Proof.
  unfold generate_report.
  destruct (default self_results results) as [|r rs'] eqn:Hres; [done|].
  cbn [length Nat.eqb]. unfold py_truediv at 1 2. rewrite nonzero_count.
  cbn [mbind outcome_bind]. intros [= <- <- <-].
  cbn [total_cases successful validation_failed behavior_failed errors success_rate].
  split; [done|]. split; [done|]. split; [done|].
  split; [apply (counts_disjoint (r :: rs'))|].
  split; [apply (counts_partition (r :: rs'))|].
  apply rate_bounds. apply (count_status_le _ (r :: rs')).
Qed.

Lemma report_counts_witness :
  exists summary,
    generate_report [] (Some [passed_result; failed_result]) "2025-01-01T00:00:02"
    = Returned (ReportSummary summary [passed_result; failed_result]
                  "2025-01-01T00:00:02") /\
    total_cases summary = 2%nat /\
    (0 <= success_rate summary <= 100)%Q.
Proof.
  eexists. split; [reflexivity|]. split; [reflexivity|].
  exact (proj2 (proj2 (proj2 (proj2 (proj2
           (report_counts [] (Some [passed_result; failed_result])
              "2025-01-01T00:00:02" _ _ _ eq_refl)))))).
Defined.

(** ** The checkpointer *)

(** X29. A checkpointer manager is disabled exactly when the environment
    sets ENABLE_CHECKPOINTER to a value that lowercases to "false" (unset
    means enabled), and then it holds no checkpointer. When enabled it
    always holds one: the SQLite saver for CHECKPOINTER_DB_PATH (default
    "checkpoints.db") if that can be opened, the in-memory saver if opening
    it fails; the failure is never raised. *)
Theorem checkpointer_enabled_unless_switched_off
    (environ : string -> option string)
    (from_conn_string : string -> outcome checkpointer) :
  let manager := CheckpointerManager_init environ from_conn_string in
  (is_enabled manager = false <->
   exists v, environ "ENABLE_CHECKPOINTER" = Some v /\ lower v = "false") /\
  (is_enabled manager = true ->
   get_checkpointer manager
   = Some match from_conn_string
                  (default "checkpoints.db" (environ "CHECKPOINTER_DB_PATH")) with
          | Returned saver => saver
          | Raised _ => MemorySaver
          end) /\
  (is_enabled manager = false -> get_checkpointer manager = None).
Proof.
  intros manager. subst manager.
  unfold is_enabled, get_checkpointer, CheckpointerManager_init, create_checkpointer, getenv.
  cbn [manager_checkpointer].
  destruct (environ "ENABLE_CHECKPOINTER") as [v|] eqn:Hv; cbn [default from_option id].
  - destruct (String.eqb_spec (lower v) "false") as [Hl|Hl].
    + split; [|split]; [|done|done]. split; [|done]. intros _. by exists v.
    + split; [|split]; [|done|done].
      split; [done|]. intros (v' & [= <-] & Hl'). done.
  - change (lower "true" =? "false")%string with false. cbn iota.
    split; [|split]; [|done|done].
    split; [done|]. by intros (v' & [=] & _).
Qed.

(** ** The agent's health check *)

(** X30. The health check answers "healthy" whether or not the graph
    information can be retrieved: when the graph's get_graph_info raises,
    the agent still reports status "healthy", with graph_available False;
    when it returns a dict, graph_available is True exactly when the dict
    has no "error" key. The status is "unhealthy" only when the graph
    returns a value on which the test for "error" itself raises. *)
Theorem health_check_reports_healthy (graph_get_graph_info : outcome value) :
  let health := LangGraphAgent_health_check graph_get_graph_info in
  (forall e, graph_get_graph_info = Raised e ->
     py_get health "status" PyNone = Returned (PyStr "healthy") /\
     py_get health "graph_available" PyNone = Returned (PyBool false)) /\
  (forall d, graph_get_graph_info = Returned (PyDict d) ->
     py_get health "status" PyNone = Returned (PyStr "healthy") /\
     py_get health "graph_available" PyNone
     = Returned (PyBool (negb (dict_mem d "error")))) /\
  (py_get health "status" PyNone = Returned (PyStr "unhealthy") <->
   exists v e, graph_get_graph_info = Returned v /\
               py_contains v (PyStr "error") = Raised e).
Proof.
  intros health. subst health.
  unfold LangGraphAgent_health_check, LangGraphAgent_get_graph_info.
  split; [by intros e ->|]. split; [by intros d ->|].
  destruct graph_get_graph_info as [v|e0]; cbn [catching].
  - destruct (py_contains v (PyStr "error")) as [b|e] eqn:Hc; cbn.
    + split; [done|]. intros (v' & e & [= <-] & He). congruence.
    + split; [|done]. intros _. by exists v, e.
  - cbn. split; [done|]. by intros (v & e & [=] & _).
Qed.
